(* Movie_Watchlist_API, src/index.js: a shallow embedding of the
   in-memory user table, the jsonwebtoken-based login and access guard,
   and the per-user movie CRUD routes, with proofs of their behaviour. *)

From Stdlib Require Import ZArith QArith List String Ascii Bool Lia Permutation.
Import ListNotations.
Open Scope string_scope.
Open Scope Z_scope.

(* ================================================================= *)
(** * JavaScript values *)

(** Numbers.  Finite numbers are kept exact (as rationals); rounding to
    IEEE doubles is not modelled, which is harmless for the integer ids
    below 2^53 the program produces. *)
Inductive jsnum :=
| NaN
| Fin (q : Q)
| PosInf
| NegInf.

(** Strict equality [===] on numbers: NaN equals nothing, [-0 === 0]. *)
Definition num_eqb (a b : jsnum) : bool :=
  match a, b with
  | Fin x, Fin y => Qeq_bool x y
  | PosInf, PosInf => true
  | NegInf, NegInf => true
  | _, _ => false
  end.

(** The values a JSON request body or a query string can carry.  Objects
    and arrays are kept opaque: the program only tests their truthiness
    or compares them with [===] against primitives. *)
Inductive jsval :=
| JUndef
| JNull
| JBool (b : bool)
| JNum (n : jsnum)
| JStr (s : string)
| JObj
| JArr.

(** [!!v] *)
Definition truthy (v : jsval) : bool :=
  match v with
  | JUndef | JNull => false
  | JBool b => b
  | JNum NaN => false
  | JNum (Fin q) => negb (Qeq_bool q 0)
  | JNum _ => true
  | JStr s => negb (String.eqb s "")
  | JObj | JArr => true
  end.

Definition is_undef (v : jsval) : bool :=
  match v with JUndef => true | _ => false end.

(** [v === s] for a string literal or a string field [s]. *)
Definition jseq_str (v : jsval) (s : string) : bool :=
  match v with JStr s' => String.eqb s' s | _ => false end.

(* ================================================================= *)
(** * [Number(s)] on strings (ECMAScript StringToNumber) *)

Section StringToNumber.

(** StrWhiteSpaceChar restricted to one-byte code units:
    TAB, LF, VT, FF, CR, SP and NBSP. *)
Definition is_ws (c : ascii) : bool :=
  let n := nat_of_ascii c in
  (Nat.eqb n 9 || Nat.eqb n 10 || Nat.eqb n 11 || Nat.eqb n 12 ||
   Nat.eqb n 13 || Nat.eqb n 32 || Nat.eqb n 160)%bool.

Fixpoint drop_ws (l : list ascii) : list ascii :=
  match l with
  | c :: r => if is_ws c then drop_ws r else l
  | [] => []
  end.

Definition trim (l : list ascii) : list ascii :=
  rev (drop_ws (rev (drop_ws l))).

Definition dec_digit (c : ascii) : option Z :=
  let n := Z.of_nat (nat_of_ascii c) in
  if (48 <=? n) && (n <=? 57) then Some (n - 48) else None.

Definition hex_digit (c : ascii) : option Z :=
  let n := Z.of_nat (nat_of_ascii c) in
  if (48 <=? n) && (n <=? 57) then Some (n - 48)
  else if (97 <=? n) && (n <=? 102) then Some (n - 87)
  else if (65 <=? n) && (n <=? 70) then Some (n - 55)
  else None.

Definition oct_digit (c : ascii) : option Z :=
  match dec_digit c with Some d => if d <=? 7 then Some d else None | None => None end.

Definition bin_digit (c : ascii) : option Z :=
  match dec_digit c with Some d => if d <=? 1 then Some d else None | None => None end.

(** The longest prefix of digits: accumulated value, digit count, rest. *)
Fixpoint take_digits (base : Z) (dig : ascii -> option Z) (l : list ascii)
    (acc : Z) (n : nat) : Z * nat * list ascii :=
  match l with
  | c :: r =>
      match dig c with
      | Some d => take_digits base dig r (acc * base + d) (S n)
      | None => (acc, n, l)
      end
  | [] => (acc, n, [])
  end.

(** A non-empty run of digits covering the whole input. *)
Definition all_digits (base : Z) (dig : ascii -> option Z) (l : list ascii)
    : option Z :=
  match take_digits base dig l 0 0 with
  | (v, S _, []) => Some v
  | _ => None
  end.

(** ExponentPart, which must end the input: its signed value. *)
Definition exponent_part (l : list ascii) : option Z :=
  match l with
  | [] => Some 0%Z
  | e :: r =>
      if (Ascii.eqb e "e"%char) || (Ascii.eqb e "E"%char) then
        match r with
        | "+"%char :: r' => all_digits 10 dec_digit r'
        | "-"%char :: r' => option_map Z.opp (all_digits 10 dec_digit r')
        | _ => all_digits 10 dec_digit r
        end
      else None
  end.

(** StrUnsignedDecimalLiteral. *)
Definition unsigned_decimal (l : list ascii) : jsnum :=
  if String.eqb (string_of_list_ascii l) "Infinity" then PosInf else
  match take_digits 10 dec_digit l 0 0 with
  | (m1, n1, rest) =>
      let '(m, nfrac, ndig, rest') :=
        match rest with
        | "."%char :: r =>
            match take_digits 10 dec_digit r m1 0 with
            | (m2, n2, r2) => (m2, n2, (n1 + n2)%nat, r2)
            end
        | _ => (m1, 0%nat, n1, rest)
        end in
      match ndig with
      | O => NaN
      | S _ =>
          match exponent_part rest' with
          | Some e => Fin (inject_Z m * Qpower (inject_Z 10) (e - Z.of_nat nfrac))
          | None => NaN
          end
      end
  end.

Definition neg_num (n : jsnum) : jsnum :=
  match n with
  | NaN => NaN
  | Fin q => Fin (- q)
  | PosInf => NegInf
  | NegInf => PosInf
  end.

Definition non_decimal (base : Z) (dig : ascii -> option Z) (r : list ascii) : jsnum :=
  match all_digits base dig r with Some v => Fin (inject_Z v) | None => NaN end.

(** StrNumericLiteral after trimming. *)
Definition numeric_literal (l : list ascii) : jsnum :=
  match l with
  | [] => Fin 0
  | "0"%char :: x :: r =>
      if (Ascii.eqb x "x"%char) || (Ascii.eqb x "X"%char) then non_decimal 16 hex_digit r
      else if (Ascii.eqb x "o"%char) || (Ascii.eqb x "O"%char) then non_decimal 8 oct_digit r
      else if (Ascii.eqb x "b"%char) || (Ascii.eqb x "B"%char) then non_decimal 2 bin_digit r
      else unsigned_decimal l
  | "+"%char :: r => unsigned_decimal r
  | "-"%char :: r => neg_num (unsigned_decimal r)
  | _ => unsigned_decimal l
  end.

(** [Number(s)] for a string [s]. *)
Definition js_Number (s : string) : jsnum :=
  numeric_literal (trim (list_ascii_of_string s)).

End StringToNumber.

(* ================================================================= *)
(** * [s.split(' ')] *)

(** JavaScript [String.prototype.split] with the one-space separator:
    every space ends a segment, so the result is never empty. *)
Fixpoint split_sp (s : string) : list string :=
  match s with
  | EmptyString => [EmptyString]
  | String c r =>
      let parts := split_sp r in
      if Ascii.eqb c " "%char then EmptyString :: parts
      else match parts with
           | p :: ps => String c p :: ps
           | [] => [String c EmptyString]
           end
  end.

Fixpoint has_space (s : string) : bool :=
  match s with
  | EmptyString => false
  | String c r => Ascii.eqb c " "%char || has_space r
  end.

(* ================================================================= *)
(** * jsonwebtoken: [jwt.sign] and [jwt.verify] *)

(** The library is outside the repository.  Its HS256 tokens are
    modelled by a space-free, self-delimiting serialisation of the payload
    followed by a part standing for the HMAC: that part determines the key
    it was computed with, so a token verifies under [key] exactly when it
    was signed with [key].  The timestamps are the library's: [iat] is
    [Math.floor(Date.now() / 1000)], [expiresIn: '24h'] gives
    [exp = iat + 86400], and verification fails with [TokenExpiredError]
    when [Math.floor(Date.now() / 1000) >= exp]. *)
Record jwt_payload := {
  p_id : Z;
  p_username : string;
  p_iat : Z;
  p_exp : Z
}.

Definition obind {A B} (o : option A) (f : A -> option B) : option B :=
  match o with Some a => f a | None => None end.
Notation "x <- a ;; b" := (obind a (fun x => b))
  (at level 60, right associativity).

Fixpoint enc_pos (p : positive) : string :=
  match p with
  | xI p' => String "1" (enc_pos p')
  | xO p' => String "0" (enc_pos p')
  | xH => String "h" EmptyString
  end.

Fixpoint dec_pos (s : string) : option (positive * string) :=
  match s with
  | String c r =>
      if Ascii.eqb c "1"%char then
        pr <- dec_pos r ;; Some (xI (fst pr), snd pr)
      else if Ascii.eqb c "0"%char then
        pr <- dec_pos r ;; Some (xO (fst pr), snd pr)
      else if Ascii.eqb c "h"%char then Some (xH, r)
      else None
  | EmptyString => None
  end.

Definition enc_Z (z : Z) : string :=
  match z with
  | Z0 => "z"
  | Zpos p => String "p" (enc_pos p)
  | Zneg p => String "n" (enc_pos p)
  end.

Definition dec_Z (s : string) : option (Z * string) :=
  match s with
  | String c r =>
      if Ascii.eqb c "z"%char then Some (Z0, r)
      else if Ascii.eqb c "p"%char then
        pr <- dec_pos r ;; Some (Zpos (fst pr), snd pr)
      else if Ascii.eqb c "n"%char then
        pr <- dec_pos r ;; Some (Zneg (fst pr), snd pr)
      else None
  | EmptyString => None
  end.

Definition bit_char (b : bool) : ascii := if b then "1"%char else "0"%char.

Definition dec_bit (s : string) : option (bool * string) :=
  match s with
  | String c r =>
      if Ascii.eqb c "1"%char then Some (true, r)
      else if Ascii.eqb c "0"%char then Some (false, r)
      else None
  | EmptyString => None
  end.

Definition enc_ascii (c : ascii) (rest : string) : string :=
  match c with
  | Ascii b0 b1 b2 b3 b4 b5 b6 b7 =>
      String (bit_char b0) (String (bit_char b1) (String (bit_char b2)
        (String (bit_char b3) (String (bit_char b4) (String (bit_char b5)
          (String (bit_char b6) (String (bit_char b7) rest)))))))
  end.

Definition dec_ascii (s : string) : option (ascii * string) :=
  x0 <- dec_bit s ;; x1 <- dec_bit (snd x0) ;; x2 <- dec_bit (snd x1) ;;
  x3 <- dec_bit (snd x2) ;; x4 <- dec_bit (snd x3) ;; x5 <- dec_bit (snd x4) ;;
  x6 <- dec_bit (snd x5) ;; x7 <- dec_bit (snd x6) ;;
  Some (Ascii (fst x0) (fst x1) (fst x2) (fst x3) (fst x4) (fst x5)
              (fst x6) (fst x7), snd x7).

Fixpoint enc_str (s : string) : string :=
  match s with
  | EmptyString => "e"
  | String c r => String "c" (enc_ascii c (enc_str r))
  end.

Fixpoint dec_str_fuel (fuel : nat) (s : string) : option (string * string) :=
  match fuel with
  | O => None
  | S f =>
      match s with
      | String c r =>
          if Ascii.eqb c "e"%char then Some (EmptyString, r)
          else if Ascii.eqb c "c"%char then
            a <- dec_ascii r ;; t <- dec_str_fuel f (snd a) ;;
            Some (String (fst a) (fst t), snd t)
          else None
      | EmptyString => None
      end
  end.

Definition dec_str (s : string) : option (string * string) :=
  dec_str_fuel (String.length s) s.

(** The serialised token: payload, a [.], then the signature part. *)
Definition encode (p : jwt_payload) (key : string) : string :=
  enc_Z (p_id p) ++ enc_str (p_username p) ++ enc_Z (p_iat p) ++
  enc_Z (p_exp p) ++ String "." (enc_str key).

Definition decode (tok : string) : option (jwt_payload * string) :=
  a <- dec_Z tok ;; b <- dec_str (snd a) ;; c <- dec_Z (snd b) ;;
  d <- dec_Z (snd c) ;;
  match snd d with
  | String dot r =>
      if Ascii.eqb dot "."%char then
        k <- dec_str r ;;
        match snd k with
        | EmptyString =>
            Some ({| p_id := fst a; p_username := fst b;
                     p_iat := fst c; p_exp := fst d |}, fst k)
        | _ => None
        end
      else None
  | EmptyString => None
  end.

(** [jwt.sign({ id, username }, key, { expiresIn: '24h' })] at time
    [now] (milliseconds). *)
Definition jwt_sign (id : Z) (username : string) (key : string) (now : Z)
    : string :=
  let iat := now / 1000 in
  encode {| p_id := id; p_username := username;
            p_iat := iat; p_exp := iat + 86400 |} key.

Inductive jwt_error :=
| JsonWebTokenError   (* malformed token *)
| InvalidSignature    (* a [JsonWebTokenError] with message 'invalid signature' *)
| TokenExpiredError.

(** [jwt.verify(token, key)] at time [now]: decoding, then the signature,
    then the expiry. *)
Definition jwt_verify (tok : string) (key : string) (now : Z)
    : jwt_error + jwt_payload :=
  match decode tok with
  | None => inl JsonWebTokenError
  | Some (p, k) =>
      if String.eqb k key then
        if p_exp p <=? now / 1000 then inl TokenExpiredError else inr p
      else inl InvalidSignature
  end.

(* ================================================================= *)
(** * The in-memory database *)

(** [{ id, movietitle, language, watched }]: the id is the number
    [generateId()] returned; the other fields hold whatever the request
    body supplied. *)
Record movie := {
  mid : Z;
  movietitle : jsval;
  language : jsval;
  watched : jsval
}.

Record user := {
  uid : Z;
  username : string;
  password : string;
  movies : list movie
}.

Definition store := list user.

(** [const users = [...]] *)
Definition users : store :=
  [ {| uid := 1; username := "Ashwanth"; password := "kok123"; movies := [] |};
    {| uid := 2; username := "alice"; password := "123"; movies := [] |} ].

(** [const SECRET_KEY = process.env.SECRET_KEY || 'fallback_secret_key'] *)
Definition SECRET_KEY (env : option string) : string :=
  match env with
  | Some s => if String.eqb s "" then "fallback_secret_key" else s
  | None => "fallback_secret_key"
  end.

(** [generateId()] at [Date.now() = now], with [Math.random() * 1000]
    floored to [r] (so [0 <= r < 1000]). *)
Definition generateId (now r : Z) : Z := now + r.

(** The user table with the movies of the first user with id [id] replaced:
    [req.user] is the object [users.find(u => u.id === decoded.id)]
    returned, so writes through [req.user] land on that element. *)
Fixpoint set_movies (st : store) (id : Z) (ms : list movie) : store :=
  match st with
  | [] => []
  | u :: rest =>
      if uid u =? id then
        {| uid := uid u; username := username u; password := password u;
           movies := ms |} :: rest
      else u :: set_movies rest id ms
  end.

Definition find_user_by_id (st : store) (id : Z) : option user :=
  find (fun u => uid u =? id) st.

(* ================================================================= *)
(** * Requests and responses *)

(** The three fields the movie routes destructure from [req.body || {}];
    [JUndef] for a field the body lacks (also when the body is an array). *)
Record movie_body := {
  b_movietitle : jsval;
  b_language : jsval;
  b_watched : jsval
}.

Definition empty_body : movie_body :=
  {| b_movietitle := JUndef; b_language := JUndef; b_watched := JUndef |}.

Inductive route :=
| PostLogin (uname pw : jsval)
| GetMovies (status : jsval)              (* [req.query.status] *)
| PostMovies (b : movie_body)
| GetMovie (id : string)                  (* [req.params.id] *)
| PutMovie (id : string) (b : movie_body)
| PatchMovie (id : string) (b : movie_body)
| DeleteMovie (id : string).

(** A request: the clock [Date.now()] while it is handled, the floored
    [Math.random() * 1000] it draws, and its [Authorization] header. *)
Record request := {
  rq_now : Z;
  rq_rand : Z;
  rq_auth : option string;
  rq_route : route
}.

Inductive resp_body :=
| RMessage (msg : string)
| RToken (token : string)
| RMovie (m : movie)
| RMovies (ms : list movie)
| REmpty.

Record response := {
  code : Z;
  rbody : resp_body
}.

Definition reply (c : Z) (b : resp_body) : response := {| code := c; rbody := b |}.

(* ================================================================= *)
(** * POST /login *)

Definition login (st : store) (key : string) (now : Z) (uname pw : jsval)
    : response :=
  if negb (truthy uname) || negb (truthy pw) then
    reply 400 (RMessage "username and password required")
  else
    match find (fun u => jseq_str uname (username u) && jseq_str pw (password u)) st with
    | None => reply 401 (RMessage "Invalid credentials")
    | Some u => reply 200 (RToken (jwt_sign (uid u) (username u) key now))
    end.

(* ================================================================= *)
(** * The access guard [authenticateToken] *)

(** [authHeader && authHeader.split(' ')[1]]: [None] is [undefined]. *)
Definition token_of (authHeader : option string) : option string :=
  match authHeader with
  | None => None
  | Some h => if String.eqb h "" then Some h else nth_error (split_sp h) 1
  end.

(** Either the rejection (status and message) or the user attached to
    [req.user] before [next()]. *)
Definition authenticateToken (st : store) (key : string) (now : Z)
    (authHeader : option string) : response + user :=
  match token_of authHeader with
  | None => inl (reply 401 (RMessage "Missing token"))
  | Some t =>
      if String.eqb t "" then inl (reply 401 (RMessage "Missing token")) else
      match jwt_verify t key now with
      | inl _ => inl (reply 403 (RMessage "Invalid or expired token"))
      | inr decoded =>
          match find_user_by_id st (p_id decoded) with
          | None => inl (reply 401 (RMessage "User not found"))
          | Some u => inr u
          end
      end
  end.

(* ================================================================= *)
(** * The movie routes *)

(** [Number(m.id) === id] for the coerced path id [id]; [m.id] is already
    a number, so [Number] leaves it unchanged. *)
Definition id_matches (id : jsnum) (m : movie) : bool :=
  num_eqb (Fin (inject_Z (mid m))) id.

(** [v === b] for a boolean literal [b]. *)
Definition jseq_bool (v : jsval) (b : bool) : bool :=
  match v with JBool b' => Bool.eqb b' b | _ => false end.

(** Writing fields of the object [array.find(p)] returned: the first
    element satisfying [p] is replaced by its updated version. *)
Fixpoint update_first {A} (p : A -> bool) (f : A -> A) (l : list A) : list A :=
  match l with
  | [] => []
  | x :: r => if p x then f x :: r else x :: update_first p f r
  end.

(** GET /movies *)
Definition get_movies (u : user) (status : jsval) : response :=
  let ms := movies u in
  let ms :=
    if jseq_str status "watched" then filter (fun m => jseq_bool (watched m) true) ms
    else if jseq_str status "unwatched" then filter (fun m => jseq_bool (watched m) false) ms
    else ms in
  reply 200 (RMovies ms).

(** A handler below returns the value [req.user.movies] holds when it
    answers (the array it pushed to, mutated an element of, reassigned,
    or only read) together with the response. *)

(** POST /movies *)
Definition post_movies (u : user) (now r : Z) (b : movie_body)
    : list movie * response :=
  if negb (truthy (b_movietitle b)) || negb (truthy (b_language b)) then
    (movies u, reply 400 (RMessage "movietitle and language are required"))
  else
    let newMovie :=
      {| mid := generateId now r;
         movietitle := b_movietitle b;
         language := b_language b;
         watched := if is_undef (b_watched b) then JBool false
                    else JBool (truthy (b_watched b)) |} in
    ((movies u ++ [newMovie])%list, reply 201 (RMovie newMovie)).

(** GET /movies/:id *)
Definition get_movie (u : user) (p : string) : response :=
  let id := js_Number p in
  match find (id_matches id) (movies u) with
  | None => reply 404 (RMessage "Movie not found")
  | Some m => reply 200 (RMovie m)
  end.

Definition put_fields (b : movie_body) (m : movie) : movie :=
  {| mid := mid m; movietitle := b_movietitle b; language := b_language b;
     watched := JBool (truthy (b_watched b)) |}.

(** PUT /movies/:id *)
Definition put_movie (u : user) (p : string) (b : movie_body)
    : list movie * response :=
  let id := js_Number p in
  match find (id_matches id) (movies u) with
  | None => (movies u, reply 404 (RMessage "Movie not found"))
  | Some m =>
      if is_undef (b_movietitle b) || is_undef (b_language b) || is_undef (b_watched b) then
        (movies u, reply 400 (RMessage "movietitle, language and watched are required for full update"))
      else
        (update_first (id_matches id) (put_fields b) (movies u),
         reply 200 (RMovie (put_fields b m)))
  end.

Definition patch_fields (b : movie_body) (m : movie) : movie :=
  {| mid := mid m;
     movietitle := if is_undef (b_movietitle b) then movietitle m else b_movietitle b;
     language := if is_undef (b_language b) then language m else b_language b;
     watched := if is_undef (b_watched b) then watched m else JBool (truthy (b_watched b)) |}.

(** PATCH /movies/:id *)
Definition patch_movie (u : user) (p : string) (b : movie_body)
    : list movie * response :=
  let id := js_Number p in
  match find (id_matches id) (movies u) with
  | None => (movies u, reply 404 (RMessage "Movie not found"))
  | Some m =>
      (update_first (id_matches id) (patch_fields b) (movies u),
       reply 200 (RMovie (patch_fields b m)))
  end.

(** DELETE /movies/:id: [req.user.movies] is reassigned to the filtered
    array before the lengths are compared. *)
Definition delete_movie (u : user) (p : string) : list movie * response :=
  let id := js_Number p in
  let before := List.length (movies u) in
  let ms := filter (fun m => negb (id_matches id m)) (movies u) in
  if Nat.eqb before (List.length ms) then (ms, reply 404 (RMessage "Movie not found"))
  else (ms, reply 204 REmpty).

(** A protected route: [authenticateToken] runs first and answers the
    request itself when it rejects; otherwise the handler runs on
    [req.user], and what it leaves in [req.user.movies] is what the user
    table holds afterwards. *)
Definition with_auth (key : string) (st : store) (rq : request)
    (h : user -> list movie * response) : store * response :=
  match authenticateToken st key (rq_now rq) (rq_auth rq) with
  | inl resp => (st, resp)
  | inr u => let (ms, resp) := h u in (set_movies st (uid u) ms, resp)
  end.

Definition handle (key : string) (st : store) (rq : request) : store * response :=
  match rq_route rq with
  | PostLogin un pw => (st, login st key (rq_now rq) un pw)
  | GetMovies s => with_auth key st rq (fun u => (movies u, get_movies u s))
  | PostMovies b => with_auth key st rq (fun u => post_movies u (rq_now rq) (rq_rand rq) b)
  | GetMovie p => with_auth key st rq (fun u => (movies u, get_movie u p))
  | PutMovie p b => with_auth key st rq (fun u => put_movie u p b)
  | PatchMovie p b => with_auth key st rq (fun u => patch_movie u p b)
  | DeleteMovie p => with_auth key st rq (fun u => delete_movie u p)
  end.

(** A sequence of requests handled one after the other. *)
Fixpoint run (key : string) (st : store) (rqs : list request) : store * list response :=
  match rqs with
  | [] => (st, [])
  | rq :: rest =>
      let (st1, r) := handle key st rq in
      let (st2, rs) := run key st1 rest in
      (st2, r :: rs)
  end.

(** The credential part of the user table. *)
Definition creds (st : store) : list (Z * string * string) :=
  map (fun u => (uid u, username u, password u)) st.

(** Routes behind [authenticateToken]. *)
Definition is_protected (r : route) : bool :=
  match r with PostLogin _ _ => false | _ => true end.

(** The ids of the user table, in order. *)
Definition uids (st : store) : list Z := map uid st.

(** The movies of the user the guard resolves id [b] to. *)
Definition movies_of (st : store) (b : Z) : option (list movie) :=
  option_map movies (find_user_by_id st b).

(** The id of the user a request is authenticated as, if the guard
    accepts it. *)
Definition auth_uid (key : string) (st : store) (rq : request) : option Z :=
  match authenticateToken st key (rq_now rq) (rq_auth rq) with
  | inr u => Some (uid u)
  | inl _ => None
  end.

(** A request to a protected route that the guard resolves to user [b]. *)
Definition by_user (key : string) (st : store) (b : Z) (rq : request) : bool :=
  is_protected (rq_route rq) &&
  match auth_uid key st rq with Some a => a =? b | None => false end.

(** [l1] is [l2] with some entries left out, the others in their order. *)
Inductive subseq {A} : list A -> list A -> Prop :=
| subseq_nil : subseq [] []
| subseq_take (x : A) (l1 l2 : list A) : subseq l1 l2 -> subseq (x :: l1) (x :: l2)
| subseq_skip (x : A) (l1 l2 : list A) : subseq l1 l2 -> subseq l1 (x :: l2).

(** Every stored [watched] field is a boolean. *)
Definition watched_bool (st : store) : Prop :=
  forall u m, In u st -> In m (movies u) -> exists b, watched m = JBool b.

(** Sample requests. *)
Definition witness_get (auth : option string) : request :=
  {| rq_now := 5000; rq_rand := 0; rq_auth := auth; rq_route := GetMovies JUndef |}.

Definition witness_post (auth : option string) : request :=
  {| rq_now := 2000; rq_rand := 7; rq_auth := auth;
     rq_route := PostMovies {| b_movietitle := JStr "Inception";
                               b_language := JStr "English"; b_watched := JUndef |} |}.

(** An Authorization header carrying a token issued to user 1 under the
    key ["k"] at 1000 ms. *)
Definition witness_auth : option string := Some ("Bearer " ++ jwt_sign 1 "Ashwanth" "k" 1000).

(* ================================================================= *)
(** * Evaluation examples *)
Example js_Number_hex : num_eqb (js_Number "0x3ED") (Fin (inject_Z 1005)) = true.
Proof. reflexivity. Qed.
Example js_Number_abc : js_Number "abc" = NaN.
Proof. reflexivity. Qed.
Example js_Number_ws : js_Number "  " = Fin 0.
Proof. reflexivity. Qed.
Example split_sp_double : split_sp "a  b" = ["a"; ""; "b"].
Proof. reflexivity. Qed.

Example js_Number_int : js_Number "1005" = Fin (inject_Z 1005).
Proof. reflexivity. Qed.

Example js_Number_exp : num_eqb (js_Number " 1.005e3 ") (Fin (inject_Z 1005)) = true.
Proof. reflexivity. Qed.

Example js_Number_dot : js_Number "." = NaN.
Proof. reflexivity. Qed.

Example split_sp_bearer : split_sp "Bearer abc" = ["Bearer"; "abc"].
Proof. reflexivity. Qed.

Example jwt_roundtrip :
  jwt_verify (jwt_sign 1 "Ashwanth" "k" 5000) "k" 6000 =
  inr {| p_id := 1; p_username := "Ashwanth"; p_iat := 5; p_exp := 86405 |}.
Proof. reflexivity. Qed.

(* ================================================================= *)
(** * Tokens: decoding inverts encoding, and tokens contain no space *)

Lemma dec_pos_enc (p : positive) (r : string) :
  dec_pos (enc_pos p ++ r) = Some (p, r).
Proof. induction p; simpl; try rewrite IHp; reflexivity. Qed.

Lemma dec_Z_enc (z : Z) (r : string) : dec_Z (enc_Z z ++ r) = Some (z, r).
Proof. destruct z; simpl; try rewrite dec_pos_enc; reflexivity. Qed.

Lemma enc_ascii_app (c : ascii) (s r : string) :
  enc_ascii c s ++ r = enc_ascii c (s ++ r).
Proof. destruct c; reflexivity. Qed.

Lemma dec_ascii_enc (c : ascii) (r : string) : dec_ascii (enc_ascii c r) = Some (c, r).
Proof.
  destruct c as [b0 b1 b2 b3 b4 b5 b6 b7].
  destruct b0, b1, b2, b3, b4, b5, b6, b7; reflexivity.
Qed.

Lemma dec_str_fuel_enc (s r : string) (f : nat) :
  (String.length s < f)%nat -> dec_str_fuel f (enc_str s ++ r) = Some (s, r).
Proof.
  revert f. induction s as [|c s IH]; intros f Hf; destruct f as [|f]; simpl in *.
  - lia.
  - reflexivity.
  - lia.
  - rewrite enc_ascii_app, dec_ascii_enc. simpl. rewrite IH by lia. reflexivity.
Qed.

Lemma length_app (s r : string) :
  String.length (s ++ r) = (String.length s + String.length r)%nat.
Proof. induction s; simpl; auto. Qed.

Lemma length_enc_ascii (c : ascii) (s : string) :
  String.length (enc_ascii c s) = (8 + String.length s)%nat.
Proof. destruct c; reflexivity. Qed.

Lemma length_enc_str (s : string) :
  String.length (enc_str s) = (9 * String.length s + 1)%nat.
Proof. induction s; simpl; try rewrite length_enc_ascii; lia. Qed.

Lemma dec_str_enc (s r : string) : dec_str (enc_str s ++ r) = Some (s, r).
Proof.
  unfold dec_str. apply dec_str_fuel_enc.
  rewrite length_app, length_enc_str. lia.
Qed.

Lemma append_empty (s : string) : s ++ "" = s.
Proof. induction s; simpl; congruence. Qed.

Lemma decode_encode (p : jwt_payload) (key : string) :
  decode (encode p key) = Some (p, key).
Proof.
  destruct p as [i u a e]. unfold decode, encode; simpl.
  rewrite dec_Z_enc; simpl. rewrite dec_str_enc; simpl.
  rewrite dec_Z_enc; simpl. rewrite dec_Z_enc; simpl.
  rewrite <- (append_empty (enc_str key)), dec_str_enc. reflexivity.
Qed.

Lemma has_space_app (s r : string) : has_space (s ++ r) = has_space s || has_space r.
Proof. induction s; simpl; try rewrite IHs; auto using orb_assoc. Qed.

Lemma has_space_enc_pos (p : positive) : has_space (enc_pos p) = false.
Proof. induction p; simpl; auto. Qed.

Lemma has_space_enc_Z (z : Z) : has_space (enc_Z z) = false.
Proof. destruct z; simpl; auto using has_space_enc_pos. Qed.

Lemma has_space_enc_ascii (c : ascii) (s : string) :
  has_space (enc_ascii c s) = has_space s.
Proof. destruct c as [b0 b1 b2 b3 b4 b5 b6 b7]; destruct b0, b1, b2, b3, b4, b5, b6, b7; reflexivity. Qed.

Lemma has_space_enc_str (s : string) : has_space (enc_str s) = false.
Proof. induction s; simpl; try rewrite has_space_enc_ascii; auto. Qed.

Lemma jwt_sign_no_space (id : Z) (un key : string) (now : Z) :
  has_space (jwt_sign id un key now) = false.
Proof.
  unfold jwt_sign, encode.
  repeat rewrite has_space_app. simpl.
  rewrite !has_space_enc_Z, !has_space_enc_str. reflexivity.
Qed.

Lemma jwt_sign_nonempty (id : Z) (un key : string) (now : Z) :
  jwt_sign id un key now <> "".
Proof. unfold jwt_sign, encode. destruct id; simpl; discriminate. Qed.

Lemma jwt_verify_sign (id : Z) (un key : string) (t0 t : Z) :
  jwt_verify (jwt_sign id un key t0) key t =
  if t0 / 1000 + 86400 <=? t / 1000 then inl TokenExpiredError
  else inr {| p_id := id; p_username := un; p_iat := t0 / 1000;
              p_exp := t0 / 1000 + 86400 |}.
Proof.
  unfold jwt_verify, jwt_sign. rewrite decode_encode, String.eqb_refl. reflexivity.
Qed.

(* ================================================================= *)
(** * Splitting the Authorization header *)

Lemma split_sp_no_space (t : string) : has_space t = false -> split_sp t = [t].
Proof.
  induction t as [|c t IH]; simpl; intros H; auto.
  apply orb_false_iff in H as [Hc Ht]. rewrite Hc, IH by exact Ht. reflexivity.
Qed.

Lemma split_sp_word (w r : string) :
  has_space w = false -> split_sp (w ++ String " " r) = w :: split_sp r.
Proof.
  induction w as [|c w IH]; simpl; intros H; auto.
  apply orb_false_iff in H as [Hc Hw]. rewrite Hc, IH by exact Hw. reflexivity.
Qed.

Lemma token_of_word (w r : string) :
  has_space w = false ->
  token_of (Some (w ++ String " " r)) = nth_error (split_sp r) 0.
Proof.
  intros H. unfold token_of.
  replace (String.eqb (w ++ String " " r) "") with false
    by (destruct w; reflexivity).
  rewrite split_sp_word by exact H. reflexivity.
Qed.

Lemma token_of_no_space (h : string) :
  has_space h = false -> h <> "" -> token_of (Some h) = None.
Proof.
  intros H Hne. unfold token_of.
  destruct (String.eqb_spec h "") as [E|_]; [contradiction|].
  rewrite split_sp_no_space by exact H. reflexivity.
Qed.

Lemma creds_users_shape (st : store) :
  creds st = creds users ->
  exists a b, st = [a; b] /\
    uid a = 1 /\ username a = "Ashwanth" /\ password a = "kok123" /\
    uid b = 2 /\ username b = "alice" /\ password b = "123".
Proof.
  intros H. destruct st as [|a [|b [|c st]]]; simpl in H; try discriminate.
  injection H as Ha1 Ha2 Ha3 Hb1 Hb2 Hb3.
  exists a, b. repeat split; assumption.
Qed.

Lemma guard_bearer_signed (st : store) (key : string) (id : Z) (un : string) (t0 t : Z) :
  authenticateToken st key t (Some ("Bearer " ++ jwt_sign id un key t0)) =
  if t0 / 1000 + 86400 <=? t / 1000 then inl (reply 403 (RMessage "Invalid or expired token"))
  else match find_user_by_id st id with
       | None => inl (reply 401 (RMessage "User not found"))
       | Some u => inr u
       end.
Proof.
  unfold authenticateToken.
  change ("Bearer " ++ jwt_sign id un key t0)
    with ("Bearer" ++ String " " (jwt_sign id un key t0)).
  rewrite token_of_word by reflexivity.
  rewrite split_sp_no_space by apply jwt_sign_no_space. cbv [nth_error]; cbv beta iota.
  rewrite (proj2 (String.eqb_neq _ _) (jwt_sign_nonempty id un key t0)).
  rewrite jwt_verify_sign.
  destruct (t0 / 1000 + 86400 <=? t / 1000); reflexivity.
Qed.

(* ================================================================= *)
(** * Claims *)

(** C10: the guard takes the second space-separated segment of the
    header and ignores the scheme word: a header without a space is a
    missing token (401), and [<word> <rest>] for any space-free word is
    treated exactly like [Bearer <rest>]. *)
Theorem guard_ignores_scheme_word (st : store) (key : string) (now : Z) :
  (forall h, has_space h = false ->
     authenticateToken st key now (Some h) = inl (reply 401 (RMessage "Missing token"))) /\
  (forall w t, has_space w = false ->
     authenticateToken st key now (Some (w ++ String " " t)) =
     authenticateToken st key now (Some ("Bearer " ++ t))).
Proof.
  split.
  - intros h Hh. unfold authenticateToken.
    destruct (String.eqb_spec h "") as [E|Ne].
    + subst h. reflexivity.
    + rewrite token_of_no_space by assumption. reflexivity.
  - intros w t Hw. unfold authenticateToken.
    change ("Bearer " ++ t) with ("Bearer" ++ String " " t).
    rewrite !token_of_word by (reflexivity || assumption). reflexivity.
Qed.

Lemma guard_ignores_scheme_word_witness :
  has_space "abc" = false /\
  authenticateToken users "k" 0 (Some "abc") = inl (reply 401 (RMessage "Missing token")) /\
  has_space "Basic" = false /\
  authenticateToken users "k" 5000 (Some ("Basic " ++ jwt_sign 2 "alice" "k" 1000)) =
  authenticateToken users "k" 5000 (Some ("Bearer " ++ jwt_sign 2 "alice" "k" 1000)).
Proof.
  split; [reflexivity|]. split.
  - apply (proj1 (guard_ignores_scheme_word users "k" 0)). reflexivity.
  - split; [reflexivity|].
    exact (proj2 (guard_ignores_scheme_word users "k" 5000) "Basic"
             (jwt_sign 2 "alice" "k" 1000) eq_refl).
Defined.

Lemma login_users (st : store) (key : string) (t0 : Z) (u : user) :
  creds st = creds users -> In u users ->
  login st key t0 (JStr (username u)) (JStr (password u)) =
  reply 200 (RToken (jwt_sign (uid u) (username u) key t0)) /\
  exists u', find_user_by_id st (uid u) = Some u' /\
    uid u' = uid u /\ username u' = username u /\ password u' = password u.
Proof.
  intros Hc Hin.
  destruct (creds_users_shape st Hc) as (a & b & -> & Ha1 & Ha2 & Ha3 & Hb1 & Hb2 & Hb3).
  simpl in Hin. destruct Hin as [<-|[<-|[]]]; simpl.
  - unfold login, find_user_by_id; simpl. rewrite Ha1, Ha2, Ha3. simpl.
    rewrite Ha1, Ha2. split; [reflexivity|]. exists a. auto.
  - unfold login, find_user_by_id; simpl.
    rewrite Ha1, Ha2, Ha3, Hb1, Hb2, Hb3. simpl.
    rewrite Hb1, Hb2. split; [reflexivity|]. exists b. auto.
Qed.

(** C1 (amended): a login with a user's exact credentials returns 200 and
    a token; presenting it as [Bearer <token>] is accepted, resolving to
    that same user, as long as [floor(now/1000) < floor(t0/1000) + 86400]
    (in particular whenever at most 86399 seconds have passed since
    issuance), and rejected with 403 once 24 hours have elapsed. *)
Theorem login_token_window (env : option string) (st : store) (u : user) (t0 t : Z) :
  creds st = creds users -> In u users ->
  let key := SECRET_KEY env in
  let tok := jwt_sign (uid u) (username u) key t0 in
  login st key t0 (JStr (username u)) (JStr (password u)) = reply 200 (RToken tok) /\
  ((t / 1000 < t0 / 1000 + 86400 \/ t - t0 <= 86399000) ->
     exists u', authenticateToken st key t (Some ("Bearer " ++ tok)) = inr u' /\
       uid u' = uid u /\ username u' = username u /\ password u' = password u) /\
  (t0 + 86400000 <= t ->
     authenticateToken st key t (Some ("Bearer " ++ tok)) =
     inl (reply 403 (RMessage "Invalid or expired token"))).
Proof.
  intros Hc Hin key tok.
  destruct (login_users st key t0 u Hc Hin) as [Hl (u' & Hf & H1 & H2 & H3)].
  split; [exact Hl|]. split.
  - intros Ht. exists u'. unfold tok. rewrite guard_bearer_signed.
    assert (Hlt : t / 1000 < t0 / 1000 + 86400).
    { destruct Ht as [Ht|Ht]; [exact Ht|].
      assert (t / 1000 <= (t0 + 86399 * 1000) / 1000) by (apply Z.div_le_mono; lia).
      rewrite Z.div_add in H by lia. lia. }
    replace (t0 / 1000 + 86400 <=? t / 1000) with false by (symmetry; apply Z.leb_gt; lia).
    rewrite Hf. auto.
  - intros Ht. unfold tok. rewrite guard_bearer_signed.
    assert ((t0 + 86400 * 1000) / 1000 <= t / 1000) by (apply Z.div_le_mono; lia).
    rewrite Z.div_add in H by lia.
    replace (t0 / 1000 + 86400 <=? t / 1000) with true by (symmetry; apply Z.leb_le; lia).
    reflexivity.
Qed.

Lemma login_token_window_witness :
  let u := {| uid := 2; username := "alice"; password := "123"; movies := [] |} in
  let tok := jwt_sign 2 "alice" (SECRET_KEY None) 1000 in
  creds users = creds users /\ In u users /\
  (login users (SECRET_KEY None) 1000 (JStr "alice") (JStr "123") = reply 200 (RToken tok) /\
   ((5000 / 1000 < 1000 / 1000 + 86400 \/ 5000 - 1000 <= 86399000) ->
     exists u', authenticateToken users (SECRET_KEY None) 5000 (Some ("Bearer " ++ tok)) = inr u' /\
       uid u' = 2 /\ username u' = "alice" /\ password u' = "123") /\
   (1000 + 86400000 <= 5000 ->
     authenticateToken users (SECRET_KEY None) 5000 (Some ("Bearer " ++ tok)) =
     inl (reply 403 (RMessage "Invalid or expired token")))).
Proof.
  intros u tok. split; [reflexivity|]. split; [simpl; auto|].
  exact (login_token_window None users u 1000 5000 eq_refl (or_intror (or_introl eq_refl))).
Defined.

(** C1, as stated, fails: a token issued at 999 ms is already rejected at
    86400000 ms, less than 24 hours later, because jsonwebtoken counts
    [iat] and [exp] in whole seconds. *)
Lemma login_token_window_cex :
  let key := SECRET_KEY None in
  let tok := jwt_sign 1 "Ashwanth" key 999 in
  login users key 999 (JStr "Ashwanth") (JStr "kok123") = reply 200 (RToken tok) /\
  86400000 - 999 < 24 * 3600 * 1000 /\
  authenticateToken users key 86400000 (Some ("Bearer " ++ tok)) =
  inl (reply 403 (RMessage "Invalid or expired token")).
Proof. vm_compute. split; [reflexivity|]. split; reflexivity. Qed.

Lemma handle_rejected (key : string) (st : store) (rq : request) (resp : response) :
  is_protected (rq_route rq) = true ->
  authenticateToken st key (rq_now rq) (rq_auth rq) = inl resp ->
  handle key st rq = (st, resp).
Proof.
  intros Hp Ha. unfold handle, with_auth.
  destruct (rq_route rq); try discriminate; rewrite Ha; reflexivity.
Qed.

(** C2: on a protected route the guard answers before any handler runs
    and leaves the store unchanged: 401 when no token is supplied; 403
    when the token is malformed, signed with another key, or expired; 401
    when it verifies but its id matches no user. *)
Theorem guard_rejections (key : string) (st : store) (rq : request) :
  is_protected (rq_route rq) = true ->
  let now := rq_now rq in
  ((token_of (rq_auth rq) = None \/ token_of (rq_auth rq) = Some "") ->
     handle key st rq = (st, reply 401 (RMessage "Missing token"))) /\
  (forall t, token_of (rq_auth rq) = Some t -> t <> "" ->
     (decode t = None \/
      exists p k, decode t = Some (p, k) /\ (k <> key \/ p_exp p <= now / 1000)) ->
     handle key st rq = (st, reply 403 (RMessage "Invalid or expired token"))) /\
  (forall t p, token_of (rq_auth rq) = Some t -> t <> "" ->
     decode t = Some (p, key) -> now / 1000 < p_exp p ->
     find_user_by_id st (p_id p) = None ->
     handle key st rq = (st, reply 401 (RMessage "User not found"))).
Proof.
  intros Hp now. split; [|split].
  - intros Ht. apply handle_rejected; [exact Hp|].
    unfold authenticateToken. destruct Ht as [-> | ->]; reflexivity.
  - intros t Ht Hne Hbad. apply handle_rejected; [exact Hp|].
    unfold authenticateToken. rewrite Ht.
    rewrite (proj2 (String.eqb_neq _ _) Hne).
    unfold jwt_verify. destruct Hbad as [-> | (p & k & -> & Hk)]; [reflexivity|].
    destruct (String.eqb_spec k key) as [->|Nk]; [|reflexivity].
    destruct Hk as [Hk|Hk]; [contradiction|].
    replace (p_exp p <=? rq_now rq / 1000) with true
      by (symmetry; apply Z.leb_le; exact Hk).
    reflexivity.
  - intros t p Ht Hne Hd Hexp Hf. apply handle_rejected; [exact Hp|].
    unfold authenticateToken. rewrite Ht.
    rewrite (proj2 (String.eqb_neq _ _) Hne).
    unfold jwt_verify. rewrite Hd, String.eqb_refl.
    replace (p_exp p <=? rq_now rq / 1000) with false
      by (symmetry; apply Z.leb_gt; exact Hexp).
    rewrite Hf. reflexivity.
Qed.

Lemma guard_rejections_witness :
  handle "k" users (witness_get None) = (users, reply 401 (RMessage "Missing token")) /\
  handle "k" users (witness_get (Some "Bearer xyz")) =
    (users, reply 403 (RMessage "Invalid or expired token")) /\
  handle "k" users (witness_get (Some ("Bearer " ++ jwt_sign 7 "bob" "k" 1000))) =
    (users, reply 401 (RMessage "User not found")).
Proof.
  split; [|split].
  - apply (proj1 (guard_rejections "k" users (witness_get None) eq_refl)).
    left. reflexivity.
  - apply (proj1 (proj2 (guard_rejections "k" users (witness_get (Some "Bearer xyz")) eq_refl))
             "xyz" eq_refl); [discriminate|]. left. reflexivity.
  - apply (proj2 (proj2 (guard_rejections "k" users
             (witness_get (Some ("Bearer " ++ jwt_sign 7 "bob" "k" 1000))) eq_refl))
             (jwt_sign 7 "bob" "k" 1000)
             {| p_id := 7; p_username := "bob"; p_iat := 1; p_exp := 86401 |});
      vm_compute; try reflexivity; discriminate.
Defined.

(* ================================================================= *)
(** * Frame lemmas for the user table *)

Lemma find_user_some (st : store) (id : Z) (u : user) :
  find_user_by_id st id = Some u -> uid u = id.
Proof.
  unfold find_user_by_id. intros H. apply find_some in H as [_ H].
  apply Z.eqb_eq in H. exact H.
Qed.

Lemma set_movies_uids (st : store) (id : Z) (ms : list movie) :
  uids (set_movies st id ms) = uids st.
Proof.
  induction st as [|u st IH]; simpl; auto.
  destruct (uid u =? id); simpl; congruence.
Qed.

Lemma set_movies_creds (st : store) (id : Z) (ms : list movie) :
  creds (set_movies st id ms) = creds st.
Proof.
  induction st as [|u st IH]; simpl; auto.
  destruct (uid u =? id); simpl; congruence.
Qed.

Lemma find_set_same (st : store) (id : Z) (ms : list movie) (u : user) :
  find_user_by_id st id = Some u ->
  movies_of (set_movies st id ms) id = Some ms.
Proof.
  unfold movies_of, find_user_by_id. induction st as [|v st IH]; simpl; [discriminate|].
  destruct (uid v =? id) eqn:E; simpl.
  - rewrite E. reflexivity.
  - rewrite E. exact IH.
Qed.

Lemma find_set_other (st : store) (id b : Z) (ms : list movie) :
  id <> b -> find_user_by_id (set_movies st id ms) b = find_user_by_id st b.
Proof.
  intros Ne. unfold find_user_by_id. induction st as [|v st IH]; simpl; auto.
  destruct (uid v =? id) eqn:E; simpl.
  - apply Z.eqb_eq in E. replace (uid v =? b) with false
      by (symmetry; apply Z.eqb_neq; congruence). reflexivity.
  - destruct (uid v =? b); auto.
Qed.

Lemma set_movies_found (st : store) (id : Z) (u : user) :
  find_user_by_id st id = Some u -> set_movies st id (movies u) = st.
Proof.
  unfold find_user_by_id. induction st as [|v st IH]; simpl; [discriminate|].
  destruct (uid v =? id); intros H.
  - injection H as <-. destruct v; reflexivity.
  - rewrite IH by exact H. reflexivity.
Qed.

Lemma find_uids (st1 st2 : store) (id : Z) :
  uids st1 = uids st2 ->
  option_map uid (find_user_by_id st1 id) = option_map uid (find_user_by_id st2 id).
Proof.
  unfold find_user_by_id. revert st2.
  induction st1 as [|u st1 IH]; intros [|v st2] H; simpl in H; try discriminate; auto.
  injection H as Huv Hst. simpl. rewrite Huv.
  destruct (uid v =? id) eqn:E; simpl; [congruence|].
  apply IH. exact Hst.
Qed.

Lemma guard_found (st : store) (key : string) (now : Z) (h : option string) (u : user) :
  authenticateToken st key now h = inr u -> find_user_by_id st (uid u) = Some u.
Proof.
  unfold authenticateToken.
  destruct (token_of h) as [t|]; [|discriminate].
  destruct (String.eqb t ""); [discriminate|].
  destruct (jwt_verify t key now) as [e|p]; [discriminate|].
  destruct (find_user_by_id st (p_id p)) as [v|] eqn:E; [|discriminate].
  intros H; injection H as <-. rewrite (find_user_some _ _ _ E). exact E.
Qed.

Lemma auth_uid_uids (key : string) (st1 st2 : store) (rq : request) :
  uids st1 = uids st2 -> auth_uid key st1 rq = auth_uid key st2 rq.
Proof.
  intros H. unfold auth_uid, authenticateToken.
  destruct (token_of (rq_auth rq)) as [t|]; auto.
  destruct (String.eqb t ""); auto.
  destruct (jwt_verify t key (rq_now rq)) as [e|p]; auto.
  pose proof (find_uids st1 st2 (p_id p) H) as F.
  destruct (find_user_by_id st1 (p_id p)), (find_user_by_id st2 (p_id p));
    simpl in F; congruence.
Qed.

Lemma by_user_uids (key : string) (st1 st2 : store) (b : Z) (rq : request) :
  uids st1 = uids st2 -> by_user key st1 b rq = by_user key st2 b rq.
Proof. intros H. unfold by_user. rewrite (auth_uid_uids key st1 st2 rq H). reflexivity. Qed.

Lemma with_auth_uids (key : string) (st : store) (rq : request) h :
  uids (fst (with_auth key st rq h)) = uids st.
Proof.
  unfold with_auth. destruct (authenticateToken st key (rq_now rq) (rq_auth rq)) as [r|u];
    [reflexivity|]. destruct (h u). apply set_movies_uids.
Qed.

Lemma handle_uids (key : string) (st : store) (rq : request) :
  uids (fst (handle key st rq)) = uids st.
Proof. unfold handle. destruct (rq_route rq); try apply with_auth_uids; reflexivity. Qed.

Lemma with_auth_creds (key : string) (st : store) (rq : request) h :
  creds (fst (with_auth key st rq h)) = creds st.
Proof.
  unfold with_auth. destruct (authenticateToken st key (rq_now rq) (rq_auth rq)) as [r|u];
    [reflexivity|]. destruct (h u). apply set_movies_creds.
Qed.

Lemma handle_creds (key : string) (st : store) (rq : request) :
  creds (fst (handle key st rq)) = creds st.
Proof. unfold handle. destruct (rq_route rq); try apply with_auth_creds; reflexivity. Qed.

Lemma with_auth_other (key : string) (st : store) (rq : request) h (b : Z) :
  auth_uid key st rq <> Some b ->
  movies_of (fst (with_auth key st rq h)) b = movies_of st b.
Proof.
  unfold with_auth, auth_uid.
  destruct (authenticateToken st key (rq_now rq) (rq_auth rq)) as [r|u]; [reflexivity|].
  intros Ne. destruct (h u) as [ms resp]. simpl. unfold movies_of.
  rewrite find_set_other by congruence. reflexivity.
Qed.

Lemma handle_other (key : string) (st : store) (rq : request) (b : Z) :
  by_user key st b rq = false ->
  movies_of (fst (handle key st rq)) b = movies_of st b.
Proof.
  unfold by_user, handle. intros H.
  destruct (rq_route rq); simpl in H; try reflexivity;
    apply with_auth_other; intros E; rewrite E, Z.eqb_refl in H; discriminate.
Qed.

Lemma with_auth_same (key : string) (st1 st2 : store) (rq : request) h (b : Z) :
  uids st1 = uids st2 -> movies_of st1 b = movies_of st2 b ->
  auth_uid key st1 rq = Some b ->
  (forall u1 u2, movies u1 = movies u2 -> h u1 = h u2) ->
  snd (with_auth key st1 rq h) = snd (with_auth key st2 rq h) /\
  uids (fst (with_auth key st1 rq h)) = uids (fst (with_auth key st2 rq h)) /\
  movies_of (fst (with_auth key st1 rq h)) b = movies_of (fst (with_auth key st2 rq h)) b.
Proof.
  intros Hu Hm Ha1 Hh.
  assert (Ha2 : auth_uid key st2 rq = Some b) by (rewrite <- (auth_uid_uids key st1 st2 rq Hu); exact Ha1).
  unfold auth_uid, with_auth in *.
  destruct (authenticateToken st1 key (rq_now rq) (rq_auth rq)) as [r1|u1] eqn:G1; [discriminate|].
  destruct (authenticateToken st2 key (rq_now rq) (rq_auth rq)) as [r2|u2] eqn:G2; [discriminate|].
  injection Ha1 as E1. injection Ha2 as E2.
  pose proof (guard_found _ _ _ _ _ G1) as F1. pose proof (guard_found _ _ _ _ _ G2) as F2.
  rewrite E1 in F1. rewrite E2 in F2.
  unfold movies_of in Hm. rewrite F1, F2 in Hm. injection Hm as Hm.
  rewrite (Hh u1 u2 Hm). destruct (h u2) as [ms resp]. simpl.
  rewrite !set_movies_uids, E1, E2.
  rewrite (find_set_same st1 b ms u1 F1), (find_set_same st2 b ms u2 F2). auto.
Qed.

Lemma handle_same (key : string) (st1 st2 : store) (rq : request) (b : Z) :
  uids st1 = uids st2 -> movies_of st1 b = movies_of st2 b ->
  by_user key st1 b rq = true ->
  snd (handle key st1 rq) = snd (handle key st2 rq) /\
  uids (fst (handle key st1 rq)) = uids (fst (handle key st2 rq)) /\
  movies_of (fst (handle key st1 rq)) b = movies_of (fst (handle key st2 rq)) b.
Proof.
  intros Hu Hm H. unfold by_user in H.
  assert (Ha : is_protected (rq_route rq) = true -> auth_uid key st1 rq = Some b).
  { intros P. rewrite P in H. simpl in H.
    destruct (auth_uid key st1 rq) as [a|]; [|discriminate].
    apply Z.eqb_eq in H. congruence. }
  unfold handle. destruct (rq_route rq); simpl in H; try discriminate;
    apply with_auth_same; auto; intros u1 u2 E;
    unfold get_movies, post_movies, get_movie, put_movie, patch_movie, delete_movie;
    rewrite E; reflexivity.
Qed.

Lemma run_isolated (key : string) (b : Z) (rqs : list request) :
  forall st0 st1 st2,
  uids st1 = uids st0 -> uids st1 = uids st2 -> movies_of st1 b = movies_of st2 b ->
  (uids (fst (run key st1 rqs)) = uids (fst (run key st2 (filter (by_user key st0 b) rqs))) /\
   movies_of (fst (run key st1 rqs)) b =
   movies_of (fst (run key st2 (filter (by_user key st0 b) rqs))) b) /\
  map snd (filter (fun x => by_user key st0 b (fst x)) (combine rqs (snd (run key st1 rqs)))) =
  snd (run key st2 (filter (by_user key st0 b) rqs)).
Proof.
  induction rqs as [|rq rest IH]; intros st0 st1 st2 H0 H12 Hm; simpl; [auto|].
  destruct (handle key st1 rq) as [s1 r1] eqn:E1.
  destruct (run key s1 rest) as [f1 rs1] eqn:F1. simpl.
  assert (Hs1 : uids s1 = uids st1)
    by (rewrite <- (handle_uids key st1 rq), E1; reflexivity).
  destruct (by_user key st0 b rq) eqn:K.
  - assert (Hb : by_user key st1 b rq = true) by (rewrite (by_user_uids key st1 st0 b rq H0); exact K).
    destruct (handle_same key st1 st2 rq b H12 Hm Hb) as (Hr & Hu & Hmv).
    simpl. destruct (handle key st2 rq) as [s2 r2] eqn:E2.
    destruct (run key s2 (filter (by_user key st0 b) rest)) as [f2 rs2] eqn:F2.
    rewrite E1 in Hr, Hu, Hmv. simpl in Hr, Hu, Hmv.
    destruct (IH st0 s1 s2 ltac:(congruence) Hu Hmv) as [[Hu' Hm'] Hr'].
    rewrite F1, F2 in *. simpl in *. split; [split; assumption|]. congruence.
  - assert (Hb : by_user key st1 b rq = false) by (rewrite (by_user_uids key st1 st0 b rq H0); exact K).
    pose proof (handle_other key st1 rq b Hb) as Ho. rewrite E1 in Ho. simpl in Ho.
    destruct (IH st0 s1 st2 ltac:(congruence) ltac:(congruence) ltac:(congruence))
      as [[Hu' Hm'] Hr'].
    rewrite F1 in *. simpl in *. split; [split; assumption|]. exact Hr'.
Qed.

(** C3: watchlists are isolated.  A request authenticated as a user
    [a <> b] leaves [b]'s movies unchanged; the reads of [b] only return
    movies of [b]'s own collection; and in any sequence of requests,
    [b]'s collection and the answers to [b]'s requests are the same as
    when only [b]'s requests are handled, so nothing another user creates
    can reach [b]'s results, whichever id [b] asks for. *)
Theorem watchlists_isolated (key : string) (st : store) (rqs : list request) (b : Z) :
  (forall rq a, auth_uid key st rq = Some a -> a <> b ->
     movies_of (fst (handle key st rq)) b = movies_of st b) /\
  (forall rq p m, rq_route rq = GetMovie p -> auth_uid key st rq = Some b ->
     rbody (snd (handle key st rq)) = RMovie m ->
     exists ms, movies_of st b = Some ms /\ In m ms) /\
  (forall rq s l, rq_route rq = GetMovies s -> auth_uid key st rq = Some b ->
     rbody (snd (handle key st rq)) = RMovies l ->
     exists ms, movies_of st b = Some ms /\ incl l ms) /\
  movies_of (fst (run key st rqs)) b =
    movies_of (fst (run key st (filter (by_user key st b) rqs))) b /\
  map snd (filter (fun x => by_user key st b (fst x)) (combine rqs (snd (run key st rqs)))) =
    snd (run key st (filter (by_user key st b) rqs)).
Proof.
  split; [|split; [|split]].
  - intros rq a Ha Ne. apply handle_other. unfold by_user. rewrite Ha.
    replace (a =? b) with false by (symmetry; apply Z.eqb_neq; exact Ne).
    apply andb_false_r.
  - intros rq p m R Ha Hb. unfold auth_uid in Ha. unfold handle in Hb.
    rewrite R in Hb. unfold with_auth in Hb.
    destruct (authenticateToken st key (rq_now rq) (rq_auth rq)) as [r|u] eqn:G;
      [discriminate|].
    injection Ha as Ha. pose proof (guard_found _ _ _ _ _ G) as F. rewrite Ha in F.
    exists (movies u). unfold movies_of. rewrite F. split; [reflexivity|].
    simpl in Hb. unfold get_movie in Hb.
    destruct (find (id_matches (js_Number p)) (movies u)) as [m'|] eqn:Fm; [|discriminate].
    simpl in Hb. injection Hb as <-. apply find_some in Fm. tauto.
  - intros rq s l R Ha Hb. unfold auth_uid in Ha. unfold handle in Hb.
    rewrite R in Hb. unfold with_auth in Hb.
    destruct (authenticateToken st key (rq_now rq) (rq_auth rq)) as [r|u] eqn:G;
      [discriminate|].
    injection Ha as Ha. pose proof (guard_found _ _ _ _ _ G) as F. rewrite Ha in F.
    exists (movies u). unfold movies_of. rewrite F. split; [reflexivity|].
    simpl in Hb. unfold get_movies in Hb.
    intros x Hx.
    destruct (jseq_str s "watched"); [|destruct (jseq_str s "unwatched")];
      simpl in Hb; injection Hb as <-; try (apply filter_In in Hx; tauto); exact Hx.
  - destruct (run_isolated key b rqs st st st eq_refl eq_refl eq_refl) as [[_ H1] H2].
    split; assumption.
Qed.

Lemma watchlists_isolated_witness :
  let rq := witness_post (Some ("Bearer " ++ jwt_sign 1 "Ashwanth" "k" 1000)) in
  auth_uid "k" users rq = Some 1 /\ 1 <> 2 /\
  movies_of (fst (handle "k" users rq)) 2 = movies_of users 2.
Proof.
  intros rq.
  assert (Ha : auth_uid "k" users rq = Some 1) by (vm_compute; reflexivity).
  split; [exact Ha|]. split; [lia|].
  exact (proj1 (watchlists_isolated "k" users [] 2) rq 1 Ha ltac:(lia)).
Defined.

(* ================================================================= *)
(** * Per-collection invariants *)

Lemma set_movies_in (st : store) (id : Z) (ms : list movie) (u : user) :
  In u (set_movies st id ms) -> In u st \/ movies u = ms.
Proof.
  induction st as [|v st IH]; simpl; [tauto|].
  destruct (uid v =? id); simpl; intros [<-|H]; auto; destruct (IH H); auto.
Qed.

Lemma guard_in (st : store) (key : string) (now : Z) (h : option string) (u : user) :
  authenticateToken st key now h = inr u -> In u st.
Proof.
  intros G. pose proof (guard_found _ _ _ _ _ G) as F.
  unfold find_user_by_id in F. apply find_some in F. tauto.
Qed.

(** What holds of every collection of the table, and of every
    collection a handler leaves, holds of every collection afterwards. *)
Lemma with_auth_lift (P : list movie -> Prop) (key : string) (st : store) (rq : request) h :
  (forall u, In u st -> P (movies u)) ->
  (forall u, In u st -> P (fst (h u))) ->
  forall u, In u (fst (with_auth key st rq h)) -> P (movies u).
Proof.
  intros Hst Hh. unfold with_auth.
  destruct (authenticateToken st key (rq_now rq) (rq_auth rq)) as [r|u0] eqn:G; [exact Hst|].
  pose proof (guard_in _ _ _ _ _ G) as Hin.
  specialize (Hh u0 Hin). destruct (h u0) as [ms resp]. simpl in *.
  intros u Hu. destruct (set_movies_in _ _ _ _ Hu) as [H|H]; [auto|rewrite H; exact Hh].
Qed.

Lemma map_update_first {A B} (g : A -> B) (p : A -> bool) (f : A -> A) (l : list A) :
  (forall x, g (f x) = g x) -> map g (update_first p f l) = map g l.
Proof.
  intros Hf. induction l as [|x l IH]; simpl; auto.
  destruct (p x); simpl; rewrite ?Hf, ?IH; reflexivity.
Qed.

Lemma NoDup_map_filter {A B} (g : A -> B) (p : A -> bool) (l : list A) :
  NoDup (map g l) -> NoDup (map g (filter p l)).
Proof.
  induction l as [|x l IH]; simpl; intros H; auto.
  inversion H as [|y ys Hx Hl]; subst.
  destruct (p x); simpl; auto.
  constructor; auto. intros Hin. apply Hx.
  apply in_map_iff in Hin as (z & Hz & Hzin). apply filter_In in Hzin.
  apply in_map_iff. exists z. tauto.
Qed.

Lemma NoDup_snoc {A} (l : list A) (x : A) :
  NoDup l -> ~ In x l -> NoDup (l ++ [x]).
Proof.
  intros Hl Hx. apply Permutation_NoDup with (l := x :: l).
  - apply Permutation_cons_append.
  - constructor; assumption.
Qed.

(** C4 (amended): [generateId] is [Date.now() + r] with [r >= 0] and is
    not checked against the collection.  Every request keeps the ids of
    every collection pairwise distinct provided every id already stored
    is below the [Date.now()] of the request (as it is when every earlier
    creation happened at least 1000 ms before): PUT and PATCH keep ids,
    DELETE only removes entries, and POST appends an id no smaller than
    [Date.now()]. *)
Theorem movie_ids_distinct (key : string) (st : store) (rq : request) :
  0 <= rq_rand rq ->
  (forall u m, In u st -> In m (movies u) -> mid m < rq_now rq) ->
  (forall u, In u st -> NoDup (map mid (movies u))) ->
  forall u, In u (fst (handle key st rq)) -> NoDup (map mid (movies u)).
Proof.
  intros Hr Hlt Hnd. unfold handle.
  destruct (rq_route rq) as [un pw|s|b|p|p b|p b|p]; [exact Hnd|..].
  all: apply (with_auth_lift (fun ms => NoDup (map mid ms))); [exact Hnd|]; intros u Hu; simpl.
  - apply Hnd, Hu.
  - unfold post_movies.
    destruct (negb (truthy (b_movietitle b)) || negb (truthy (b_language b))); simpl;
      [apply Hnd, Hu|].
    rewrite map_app. apply NoDup_snoc; [apply Hnd, Hu|]. simpl.
    intros Hin. apply in_map_iff in Hin as (m & Hm & Hmin).
    specialize (Hlt u m Hu Hmin). unfold generateId in Hm. lia.
  - apply Hnd, Hu.
  - unfold put_movie. destruct (find _ _); [destruct (_ || _ || _)|]; simpl;
      try rewrite map_update_first by reflexivity; apply Hnd, Hu.
  - unfold patch_movie. destruct (find _ _); simpl;
      try rewrite map_update_first by reflexivity; apply Hnd, Hu.
  - unfold delete_movie. destruct (Nat.eqb _ _); simpl; apply NoDup_map_filter, Hnd, Hu.
Qed.

Lemma movie_ids_distinct_witness :
  let mv (i : Z) (t : string) := {| mid := i; movietitle := JStr t; language := JStr "English";
                                    watched := JBool false |} in
  let st := [ {| uid := 1; username := "Ashwanth"; password := "kok123";
                 movies := [mv 1500 "Up"; mv 1800 "Heat"] |};
              {| uid := 2; username := "alice"; password := "123";
                 movies := [mv 1200 "Alien"] |} ] in
  let rq := witness_post (Some ("Bearer " ++ jwt_sign 1 "Ashwanth" "k" 1000)) in
  0 <= rq_rand rq /\
  (forall u m, In u st -> In m (movies u) -> mid m < rq_now rq) /\
  (forall u, In u st -> NoDup (map mid (movies u))) /\
  option_map (map mid) (movies_of (fst (handle "k" st rq)) 1) = Some [1500; 1800; 2007] /\
  (forall u, In u (fst (handle "k" st rq)) -> NoDup (map mid (movies u))).
Proof.
  intros mv st rq.
  assert (H1 : 0 <= rq_rand rq) by (simpl; lia).
  assert (H2 : forall u m, In u st -> In m (movies u) -> mid m < rq_now rq).
  { intros u m Hu Hm. destruct Hu as [<-|[<-|[]]]; simpl in Hm;
      repeat destruct Hm as [<-|Hm]; try contradiction; simpl; lia. }
  assert (H3 : forall u, In u st -> NoDup (map mid (movies u))).
  { intros u Hu. destruct Hu as [<-|[<-|[]]]; simpl;
      repeat constructor; simpl; intuition lia. }
  split; [exact H1|]. split; [exact H2|]. split; [exact H3|].
  split; [vm_compute; reflexivity|].
  exact (movie_ids_distinct "k" st rq H1 H2 H3).
Defined.

(** C4, as stated, fails: two identical POST /movies handled in the same
    millisecond that draw the same random offset store two movies with
    the same id. *)
Lemma movie_ids_distinct_cex :
  let rq := witness_post (Some ("Bearer " ++ jwt_sign 1 "Ashwanth" "k" 1000)) in
  let m := {| mid := 2007; movietitle := JStr "Inception"; language := JStr "English";
              watched := JBool false |} in
  snd (run "k" users [rq; rq]) = [reply 201 (RMovie m); reply 201 (RMovie m)] /\
  movies_of (fst (run "k" users [rq; rq])) 1 = Some [m; m] /\
  ~ NoDup (map mid [m; m]).
Proof.
  intros rq m. split; [vm_compute; reflexivity|]. split; [vm_compute; reflexivity|].
  simpl. intros H. inversion H as [|x l Hx _]. apply Hx. left. reflexivity.
Qed.

Lemma filter_subseq {A} (p : A -> bool) (l : list A) : subseq (filter p l) l.
Proof.
  induction l as [|x l IH]; simpl; [constructor|].
  destruct (p x); constructor; exact IH.
Qed.

Lemma subseq_refl {A} (l : list A) : subseq l l.
Proof. induction l; constructor; assumption. Qed.

Lemma jseq_bool_iff (v : jsval) (b : bool) : jseq_bool v b = true <-> v = JBool b.
Proof.
  destruct v; simpl; split; intros H; try discriminate.
  - apply Bool.eqb_prop in H. congruence.
  - injection H as ->. apply Bool.eqb_reflx.
Qed.

Lemma with_auth_accepted (key : string) (st : store) (rq : request) h (u : user) :
  authenticateToken st key (rq_now rq) (rq_auth rq) = inr u ->
  with_auth key st rq h = (set_movies st (uid u) (fst (h u)), snd (h u)).
Proof.
  intros G. unfold with_auth. rewrite G. destruct (h u); reflexivity.
Qed.

(** C5: GET /movies answers 200 with the user's whole sequence when
    [status] is absent or any value other than the strings ["watched"] and
    ["unwatched"]; with ["watched"] exactly the entries whose [watched] is
    [true], with ["unwatched"] exactly those whose [watched] is [false];
    the answer is always a subsequence of the stored sequence, in its
    order, and the store is unchanged. *)
Theorem list_status_filter (key : string) (st : store) (rq : request) (s : jsval) (u : user) :
  rq_route rq = GetMovies s ->
  authenticateToken st key (rq_now rq) (rq_auth rq) = inr u ->
  exists out, handle key st rq = (st, reply 200 (RMovies out)) /\
    subseq out (movies u) /\
    (s = JUndef -> out = movies u) /\
    (s = JStr "watched" ->
       out = filter (fun m => jseq_bool (watched m) true) (movies u) /\
       forall m, In m out <-> In m (movies u) /\ watched m = JBool true) /\
    (s = JStr "unwatched" ->
       out = filter (fun m => jseq_bool (watched m) false) (movies u) /\
       forall m, In m out <-> In m (movies u) /\ watched m = JBool false) /\
    (s <> JStr "watched" -> s <> JStr "unwatched" -> out = movies u).
Proof.
  intros R G. unfold handle. rewrite R, (with_auth_accepted _ _ _ _ _ G). simpl.
  rewrite (set_movies_found _ _ _ (guard_found _ _ _ _ _ G)).
  unfold get_movies.
  eexists. split; [reflexivity|].
  split; [destruct (jseq_str s "watched"); [|destruct (jseq_str s "unwatched")];
          first [apply filter_subseq | apply subseq_refl]|].
  split; [intros ->; reflexivity|].
  split; [intros ->; simpl; split; [reflexivity|];
          intros m; rewrite filter_In, jseq_bool_iff; tauto|].
  split; [intros ->; simpl; split; [reflexivity|];
          intros m; rewrite filter_In, jseq_bool_iff; tauto|].
  intros N1 N2.
  destruct s as [| | | |str| |]; try reflexivity. simpl.
  destruct (String.eqb_spec str "watched") as [->|_]; [contradiction|].
  destruct (String.eqb_spec str "unwatched") as [->|_]; [contradiction|].
  reflexivity.
Qed.

Lemma list_status_filter_witness :
  let mv (i : Z) (t : string) (w : bool) :=
    {| mid := i; movietitle := JStr t; language := JStr "English"; watched := JBool w |} in
  let u := {| uid := 1; username := "Ashwanth"; password := "kok123";
              movies := [mv 1500 "Up" true; mv 1800 "Heat" false; mv 1900 "Alien" true] |} in
  let st := [u; {| uid := 2; username := "alice"; password := "123"; movies := [] |}] in
  let rq (s : jsval) := {| rq_now := 5000; rq_rand := 0;
               rq_auth := Some ("Bearer " ++ jwt_sign 1 "Ashwanth" "k" 1000);
               rq_route := GetMovies s |} in
  authenticateToken st "k" 5000 (rq_auth (rq JUndef)) = inr u /\
  handle "k" st (rq (JStr "watched")) =
    (st, reply 200 (RMovies [mv 1500 "Up" true; mv 1900 "Alien" true])) /\
  handle "k" st (rq (JStr "unwatched")) = (st, reply 200 (RMovies [mv 1800 "Heat" false])) /\
  handle "k" st (rq (JStr "all")) = (st, reply 200 (RMovies (movies u))).
Proof.
  intros mv u st rq.
  assert (G : forall s, authenticateToken st "k" (rq_now (rq s)) (rq_auth (rq s)) = inr u)
    by (intros s; vm_compute; reflexivity).
  split; [exact (G JUndef)|].
  destruct (list_status_filter "k" st (rq (JStr "watched")) (JStr "watched") u eq_refl
              (G (JStr "watched"))) as (o1 & E1 & _ & _ & W1 & _).
  destruct (list_status_filter "k" st (rq (JStr "unwatched")) (JStr "unwatched") u eq_refl
              (G (JStr "unwatched"))) as (o2 & E2 & _ & _ & _ & W2 & _).
  destruct (list_status_filter "k" st (rq (JStr "all")) (JStr "all") u eq_refl
              (G (JStr "all"))) as (o3 & E3 & _ & _ & _ & _ & W3).
  rewrite (proj1 (W1 eq_refl)) in E1. rewrite (proj1 (W2 eq_refl)) in E2.
  rewrite (W3 ltac:(discriminate) ltac:(discriminate)) in E3.
  split; [exact E1|]. split; [exact E2|]. exact E3.
Defined.

Lemma find_split {A} (p : A -> bool) (f : A -> A) (l : list A) (x : A) :
  find p l = Some x ->
  exists pre post, l = (pre ++ x :: post)%list /\ Forall (fun y => p y = false) pre /\
    update_first p f l = (pre ++ f x :: post)%list.
Proof.
  induction l as [|y l IH]; simpl; [discriminate|].
  destruct (p y) eqn:E; intros H.
  - injection H as <-. exists [], l. simpl. auto.
  - destruct (IH H) as (pre & post & H1 & H2 & H3).
    exists (y :: pre), post. simpl. rewrite <- H3, H1 at 1. auto.
Qed.

Lemma patch_fields_empty (m : movie) : patch_fields empty_body m = m.
Proof. destruct m; reflexivity. Qed.

(** C6: PATCH on an id the user's collection holds rewrites, in the first
    movie with that id, each of [movietitle], [language], [watched] the
    body supplies ([watched] coerced with [!!]) and keeps the others and
    the id; all other entries, their order and the length are kept; with
    an empty body the answer is 200 and nothing changes. *)
Theorem patch_present_fields (key : string) (st : store) (rq : request) (p : string)
    (b : movie_body) (u : user) (m : movie) :
  rq_route rq = PatchMovie p b ->
  authenticateToken st key (rq_now rq) (rq_auth rq) = inr u ->
  find (id_matches (js_Number p)) (movies u) = Some m ->
  exists pre post m',
    movies u = (pre ++ m :: post)%list /\
    Forall (fun x => id_matches (js_Number p) x = false) pre /\
    handle key st rq = (set_movies st (uid u) (pre ++ m' :: post), reply 200 (RMovie m')) /\
    movies_of (fst (handle key st rq)) (uid u) = Some (pre ++ m' :: post)%list /\
    mid m' = mid m /\
    movietitle m' = (if is_undef (b_movietitle b) then movietitle m else b_movietitle b) /\
    language m' = (if is_undef (b_language b) then language m else b_language b) /\
    watched m' = (if is_undef (b_watched b) then watched m else JBool (truthy (b_watched b))) /\
    (b = empty_body -> m' = m /\ handle key st rq = (st, reply 200 (RMovie m))).
Proof.
  intros R G Fm.
  destruct (find_split _ (patch_fields b) _ _ Fm) as (pre & post & H1 & H2 & H3).
  pose proof (guard_found _ _ _ _ _ G) as F.
  assert (Hh : handle key st rq =
               (set_movies st (uid u) (pre ++ patch_fields b m :: post),
                reply 200 (RMovie (patch_fields b m)))).
  { unfold handle. rewrite R, (with_auth_accepted _ _ _ _ _ G). simpl.
    unfold patch_movie. rewrite Fm, H3. reflexivity. }
  exists pre, post, (patch_fields b m).
  split; [exact H1|]. split; [exact H2|]. split; [exact Hh|].
  split; [rewrite Hh; simpl; exact (find_set_same _ _ _ _ F)|].
  split; [reflexivity|]. split; [reflexivity|]. split; [reflexivity|]. split; [reflexivity|].
  intros ->. rewrite patch_fields_empty. split; [reflexivity|].
  rewrite Hh, patch_fields_empty, <- H1, (set_movies_found _ _ _ F). reflexivity.
Qed.

Lemma patch_present_fields_witness :
  let st1 := fst (handle "k" users (witness_post witness_auth)) in
  let b := {| b_movietitle := JUndef; b_language := JUndef; b_watched := JBool true |} in
  let rq := {| rq_now := 3000; rq_rand := 0; rq_auth := witness_auth;
               rq_route := PatchMovie "2007" b |} in
  let m := {| mid := 2007; movietitle := JStr "Inception"; language := JStr "English";
              watched := JBool false |} in
  let u := {| uid := 1; username := "Ashwanth"; password := "kok123"; movies := [m] |} in
  rq_route rq = PatchMovie "2007" b /\
  authenticateToken st1 "k" (rq_now rq) (rq_auth rq) = inr u /\
  find (id_matches (js_Number "2007")) (movies u) = Some m /\
  exists pre post m', movies u = (pre ++ m :: post)%list /\
    handle "k" st1 rq = (set_movies st1 (uid u) (pre ++ m' :: post), reply 200 (RMovie m')) /\
    movietitle m' = JStr "Inception" /\ watched m' = JBool true.
Proof.
  intros st1 b rq m u.
  assert (G : authenticateToken st1 "k" (rq_now rq) (rq_auth rq) = inr u)
    by (vm_compute; reflexivity).
  assert (Fm : find (id_matches (js_Number "2007")) (movies u) = Some m)
    by (vm_compute; reflexivity).
  split; [reflexivity|]. split; [exact G|]. split; [exact Fm|].
  destruct (patch_present_fields "k" st1 rq "2007" b u m eq_refl G Fm)
    as (pre & post & m' & H1 & _ & H3 & _ & _ & Ht & _ & Hw & _).
  exists pre, post, m'. split; [exact H1|]. split; [exact H3|].
  split; [exact Ht|exact Hw].
Defined.

Lemma find_filter_negb {A} (p : A -> bool) (l : list A) :
  find p (filter (fun x => negb (p x)) l) = None.
Proof.
  induction l as [|x l IH]; simpl; auto.
  destruct (p x) eqn:E; simpl; [exact IH|]. rewrite E. exact IH.
Qed.

Lemma filter_negb_shorter {A} (p : A -> bool) (l : list A) :
  existsb p l = true -> (List.length (filter (fun x => negb (p x)) l) < List.length l)%nat.
Proof.
  induction l as [|x l IH]; simpl; [discriminate|].
  assert (Hle : forall q : A -> bool, (List.length (filter q l) <= List.length l)%nat).
  { intros q. clear IH. induction l as [|y l IHl]; simpl; [lia|].
    destruct (q y); simpl; lia. }
  destruct (p x); simpl; intros H.
  - specialize (Hle (fun x => negb (p x))). lia.
  - specialize (IH H). lia.
Qed.

Lemma filter_negb_none {A} (p : A -> bool) (l : list A) :
  existsb p l = false -> filter (fun x => negb (p x)) l = l.
Proof.
  induction l as [|x l IH]; simpl; auto.
  destruct (p x); simpl; [discriminate|]. intros H. rewrite IH by exact H. reflexivity.
Qed.

(** C7: DELETE on an id the user's collection holds answers 204 with an
    empty body and removes the entries with that id, so that a following
    GET of that id by the same user answers 404; on an id it does not
    hold it answers 404 and the store is unchanged. *)
Theorem delete_removes (key : string) (st : store) (rq : request) (p : string) (u : user) :
  rq_route rq = DeleteMovie p ->
  authenticateToken st key (rq_now rq) (rq_auth rq) = inr u ->
  (existsb (id_matches (js_Number p)) (movies u) = true ->
     handle key st rq =
       (set_movies st (uid u) (filter (fun m => negb (id_matches (js_Number p) m)) (movies u)),
        reply 204 REmpty) /\
     forall rq' u', rq_route rq' = GetMovie p ->
       authenticateToken (fst (handle key st rq)) key (rq_now rq') (rq_auth rq') = inr u' ->
       uid u' = uid u ->
       handle key (fst (handle key st rq)) rq' =
         (fst (handle key st rq), reply 404 (RMessage "Movie not found"))) /\
  (existsb (id_matches (js_Number p)) (movies u) = false ->
     handle key st rq = (st, reply 404 (RMessage "Movie not found"))).
Proof.
  intros R G. pose proof (guard_found _ _ _ _ _ G) as F.
  assert (Hh : handle key st rq =
    (set_movies st (uid u) (filter (fun m => negb (id_matches (js_Number p) m)) (movies u)),
     snd (delete_movie u p))).
  { unfold handle. rewrite R, (with_auth_accepted _ _ _ _ _ G). f_equal. f_equal.
    unfold delete_movie. destruct (Nat.eqb _ _); reflexivity. }
  split.
  - intros Ex. pose proof (filter_negb_shorter _ _ Ex) as Lt.
    assert (Hd : snd (delete_movie u p) = reply 204 REmpty).
    { unfold delete_movie. simpl.
      destruct (Nat.eqb_spec (List.length (movies u))
                  (List.length (filter (fun m => negb (id_matches (js_Number p) m)) (movies u))))
        as [E|_]; [lia|reflexivity]. }
    rewrite Hd in Hh. split; [exact Hh|].
    intros rq' u' R' G' Hu. rewrite Hh in *. simpl in *.
    pose proof (guard_found _ _ _ _ _ G') as F'. rewrite Hu in F'.
    pose proof (find_set_same st (uid u)
                  (filter (fun m => negb (id_matches (js_Number p) m)) (movies u)) u F) as Fs.
    unfold movies_of in Fs. rewrite F' in Fs. injection Fs as Hm.
    unfold handle. rewrite R', (with_auth_accepted _ _ _ _ _ G'). simpl.
    rewrite (set_movies_found _ _ _ (guard_found _ _ _ _ _ G')).
    unfold get_movie. rewrite Hm, find_filter_negb. reflexivity.
  - intros Ex. rewrite Hh. unfold delete_movie. simpl.
    rewrite (filter_negb_none _ _ Ex), Nat.eqb_refl, (set_movies_found _ _ _ F).
    reflexivity.
Qed.

Lemma delete_removes_witness :
  let st1 := fst (handle "k" users (witness_post witness_auth)) in
  let rq := {| rq_now := 3000; rq_rand := 0; rq_auth := witness_auth;
               rq_route := DeleteMovie "2007" |} in
  let u := {| uid := 1; username := "Ashwanth"; password := "kok123";
              movies := [{| mid := 2007; movietitle := JStr "Inception";
                            language := JStr "English"; watched := JBool false |}] |} in
  rq_route rq = DeleteMovie "2007" /\
  authenticateToken st1 "k" (rq_now rq) (rq_auth rq) = inr u /\
  existsb (id_matches (js_Number "2007")) (movies u) = true /\
  snd (handle "k" st1 rq) = reply 204 REmpty.
Proof.
  intros st1 rq u.
  assert (G : authenticateToken st1 "k" (rq_now rq) (rq_auth rq) = inr u)
    by (vm_compute; reflexivity).
  assert (Ex : existsb (id_matches (js_Number "2007")) (movies u) = true)
    by (vm_compute; reflexivity).
  split; [reflexivity|]. split; [exact G|]. split; [exact Ex|].
  destruct (delete_removes "k" st1 rq "2007" u eq_refl G) as [Hin _].
  rewrite (proj1 (Hin Ex)). reflexivity.
Defined.

Lemma id_matches_NaN (mv : movie) : id_matches NaN mv = false.
Proof. reflexivity. Qed.

Lemma find_false {A} (l : list A) : find (fun _ => false) l = None.
Proof. induction l; simpl; auto. Qed.

Lemma filter_true {A} (l : list A) : filter (fun _ => true) l = l.
Proof. induction l; simpl; congruence. Qed.

(** C8: a path id whose [Number()] is NaN matches no stored id, so GET,
    PUT, PATCH and DELETE of it all answer 404 and leave the store
    unchanged. *)
Theorem nan_id_not_found (key : string) (st : store) (rq : request) (p : string) (u : user) :
  js_Number p = NaN ->
  authenticateToken st key (rq_now rq) (rq_auth rq) = inr u ->
  (rq_route rq = GetMovie p \/ (exists b, rq_route rq = PutMovie p b) \/
   (exists b, rq_route rq = PatchMovie p b) \/ rq_route rq = DeleteMovie p) ->
  handle key st rq = (st, reply 404 (RMessage "Movie not found")).
Proof.
  intros Hn G Hr. pose proof (guard_found _ _ _ _ _ G) as F.
  assert (Hf : find (id_matches (js_Number p)) (movies u) = None).
  { rewrite Hn. apply find_false. }
  unfold handle.
  destruct Hr as [R|[(b & R)|[(b & R)|R]]]; rewrite R, (with_auth_accepted _ _ _ _ _ G).
  - unfold get_movie. simpl. rewrite Hf. simpl. rewrite (set_movies_found _ _ _ F). reflexivity.
  - unfold put_movie. simpl. rewrite Hf. simpl. rewrite (set_movies_found _ _ _ F). reflexivity.
  - unfold patch_movie. simpl. rewrite Hf. simpl. rewrite (set_movies_found _ _ _ F). reflexivity.
  - assert (Hfl : filter (fun m => negb (id_matches (js_Number p) m)) (movies u) = movies u)
      by (rewrite Hn; apply filter_true).
    unfold delete_movie. simpl. rewrite Hfl, Nat.eqb_refl.
    simpl. rewrite (set_movies_found _ _ _ F). reflexivity.
Qed.

Lemma nan_id_not_found_witness :
  let m := {| mid := 2007; movietitle := JStr "Inception"; language := JStr "English";
              watched := JBool false |} in
  let u := {| uid := 1; username := "Ashwanth"; password := "kok123"; movies := [m] |} in
  let st := [u; {| uid := 2; username := "alice"; password := "123"; movies := [] |}] in
  let rq := {| rq_now := 3000; rq_rand := 0; rq_auth := witness_auth;
               rq_route := DeleteMovie "2007abc" |} in
  js_Number "2007abc" = NaN /\
  authenticateToken st "k" (rq_now rq) (rq_auth rq) = inr u /\
  In m (movies u) /\
  handle "k" st rq = (st, reply 404 (RMessage "Movie not found")).
Proof.
  intros m u st rq.
  assert (Hn : js_Number "2007abc" = NaN) by reflexivity.
  assert (G : authenticateToken st "k" (rq_now rq) (rq_auth rq) = inr u)
    by (vm_compute; reflexivity).
  split; [exact Hn|]. split; [exact G|]. split; [left; reflexivity|].
  exact (nan_id_not_found "k" st rq "2007abc" u Hn G (or_intror (or_intror (or_intror eq_refl)))).
Defined.

Lemma in_update_first {A} (p : A -> bool) (f : A -> A) (l : list A) (y : A) :
  In y (update_first p f l) -> In y l \/ exists x, In x l /\ y = f x.
Proof.
  induction l as [|x l IH]; simpl; [tauto|].
  destruct (p x); simpl; intros [H|H].
  - right. exists x. auto.
  - auto.
  - auto.
  - destruct (IH H) as [H'|(z & Hz & ->)]; auto. right. exists z. auto.
Qed.

Lemma handle_watched_bool (key : string) (st : store) (rq : request) :
  watched_bool st -> watched_bool (fst (handle key st rq)).
Proof.
  unfold watched_bool. intros Hst.
  set (P := fun ms : list movie => forall m, In m ms -> exists b, watched m = JBool b).
  assert (Hs : forall u, In u st -> P (movies u)) by (intros u Hu m Hm; exact (Hst u m Hu Hm)).
  enough (Hall : forall u, In u (fst (handle key st rq)) -> P (movies u))
    by (intros u m Hu Hm; exact (Hall u Hu m Hm)).
  unfold handle.
  destruct (rq_route rq) as [un pw|s|b|p|p b|p b|p]; [exact Hs|..].
  all: apply (with_auth_lift P); [exact Hs|]; intros u Hu; simpl; unfold P.
  - exact (Hs u Hu).
  - unfold post_movies.
    destruct (negb (truthy (b_movietitle b)) || negb (truthy (b_language b))); simpl;
      [exact (Hs u Hu)|].
    intros m Hm. apply in_app_or in Hm as [Hm|[<-|[]]]; [exact (Hs u Hu m Hm)|].
    simpl. destruct (is_undef (b_watched b)); eexists; reflexivity.
  - exact (Hs u Hu).
  - unfold put_movie. destruct (find _ _) as [mv|]; [destruct (_ || _ || _)|]; simpl;
      try exact (Hs u Hu).
    intros m Hm. destruct (in_update_first _ _ _ _ Hm) as [H|(x & Hx & ->)];
      [exact (Hs u Hu m H)|]. simpl. eexists; reflexivity.
  - unfold patch_movie. destruct (find _ _) as [mv|]; simpl; [|exact (Hs u Hu)].
    intros m Hm. destruct (in_update_first _ _ _ _ Hm) as [H|(x & Hx & ->)];
      [exact (Hs u Hu m H)|]. simpl.
    destruct (is_undef (b_watched b)); [exact (Hs u Hu x Hx)|eexists; reflexivity].
  - unfold delete_movie. destruct (Nat.eqb _ _); simpl;
      intros m Hm; apply filter_In in Hm; exact (Hs u Hu m (proj1 Hm)).
Qed.

Lemma run_watched_bool (key : string) (rqs : list request) :
  forall st, watched_bool st -> watched_bool (fst (run key st rqs)).
Proof.
  induction rqs as [|rq rest IH]; intros st H; simpl; [exact H|].
  pose proof (handle_watched_bool key st rq H) as H1.
  destruct (handle key st rq) as [st1 r]. destruct (run key st1 rest) as [st2 rs] eqn:E.
  simpl. specialize (IH st1 H1). rewrite E in IH. exact IH.
Qed.

(** C9: in the table every request sequence leaves, starting from the
    program's [users], every movie's [watched] is a boolean: POST stores
    [false] or [!!watched], PUT and PATCH store [!!watched]. *)
Theorem watched_always_bool (key : string) (rqs : list request) :
  watched_bool (fst (run key users rqs)).
Proof.
  apply run_watched_bool. intros u m [<-|[<-|[]]] [].
Qed.

(* ================================================================= *)
(** * Further properties of the routes *)

(** X1: POST /login answers 400 when the username or the password is
    falsy (missing, empty, null, 0, false), and otherwise 401 unless some
    user's username and password are exactly ([===]) the given strings. *)
Theorem login_errors (st : store) (key : string) (now : Z) (un pw : jsval) :
  ((truthy un = false \/ truthy pw = false) ->
     login st key now un pw = reply 400 (RMessage "username and password required")) /\
  (truthy un = true -> truthy pw = true ->
     (forall u, In u st -> ~ (un = JStr (username u) /\ pw = JStr (password u))) ->
     login st key now un pw = reply 401 (RMessage "Invalid credentials")).
Proof.
  split.
  - intros [H|H]; unfold login; rewrite H; simpl; [reflexivity|].
    rewrite orb_true_r. reflexivity.
  - intros Hu Hp Hn. unfold login. rewrite Hu, Hp. simpl.
    destruct (find _ st) as [u|] eqn:F; [|reflexivity].
    exfalso. apply find_some in F as [Hin Hm].
    apply andb_true_iff in Hm as [H1 H2].
    apply (Hn u Hin). destruct un, pw; try discriminate; simpl in H1, H2.
    apply String.eqb_eq in H1, H2. subst. auto.
Qed.

Lemma login_errors_witness :
  (truthy (JStr "") = false \/ truthy (JStr "123") = false) /\
  login users "k" 0 (JStr "") (JStr "123") = reply 400 (RMessage "username and password required") /\
  truthy (JStr "alice") = true /\ truthy (JStr "kok123") = true /\
  (forall u, In u users -> ~ (JStr "alice" = JStr (username u) /\ JStr "kok123" = JStr (password u))) /\
  login users "k" 0 (JStr "alice") (JStr "kok123") = reply 401 (RMessage "Invalid credentials").
Proof.
  assert (H1 : truthy (JStr "") = false \/ truthy (JStr "123") = false) by (left; reflexivity).
  assert (Hn : forall u, In u users ->
                 ~ (JStr "alice" = JStr (username u) /\ JStr "kok123" = JStr (password u))).
  { intros u [<-|[<-|[]]] [Ha Hb]; simpl in *; congruence. }
  split; [exact H1|].
  split; [exact (proj1 (login_errors users "k" 0 (JStr "") (JStr "123")) H1)|].
  split; [reflexivity|]. split; [reflexivity|]. split; [exact Hn|].
  exact (proj2 (login_errors users "k" 0 (JStr "alice") (JStr "kok123")) eq_refl eq_refl Hn).
Defined.

(** X2: PUT /movies/:id answers 404 when no movie has the id (whatever the
    body); when one has, it answers 400 and changes nothing if any of
    [movietitle], [language], [watched] is missing from the body (null,
    [""] or [false] count as present), and otherwise replaces the
    title and language of the first such movie by the body's values and
    its [watched] by [!!watched], keeping its id and every other entry. *)
Theorem put_replace (key : string) (st : store) (rq : request) (p : string)
    (b : movie_body) (u : user) :
  rq_route rq = PutMovie p b ->
  authenticateToken st key (rq_now rq) (rq_auth rq) = inr u ->
  (find (id_matches (js_Number p)) (movies u) = None ->
     handle key st rq = (st, reply 404 (RMessage "Movie not found"))) /\
  (forall m, find (id_matches (js_Number p)) (movies u) = Some m ->
     (is_undef (b_movietitle b) || is_undef (b_language b) || is_undef (b_watched b) = true ->
        handle key st rq =
          (st, reply 400 (RMessage "movietitle, language and watched are required for full update"))) /\
     (is_undef (b_movietitle b) || is_undef (b_language b) || is_undef (b_watched b) = false ->
        let m' := {| mid := mid m; movietitle := b_movietitle b; language := b_language b;
                     watched := JBool (truthy (b_watched b)) |} in
        exists pre post,
          movies u = (pre ++ m :: post)%list /\
          Forall (fun x => id_matches (js_Number p) x = false) pre /\
          handle key st rq = (set_movies st (uid u) (pre ++ m' :: post), reply 200 (RMovie m')))).
Proof.
  intros R G. pose proof (guard_found _ _ _ _ _ G) as F.
  unfold handle. rewrite R, (with_auth_accepted _ _ _ _ _ G). unfold put_movie. simpl.
  split.
  - intros Hf. rewrite Hf. simpl. rewrite (set_movies_found _ _ _ F). reflexivity.
  - intros m Hf. rewrite Hf. split.
    + intros Hu. rewrite Hu. simpl. rewrite (set_movies_found _ _ _ F). reflexivity.
    + intros Hu. rewrite Hu. simpl.
      destruct (find_split _ (put_fields b) _ _ Hf) as (pre & post & H1 & H2 & H3).
      exists pre, post. split; [exact H1|]. split; [exact H2|]. rewrite H3. reflexivity.
Qed.

Lemma put_replace_witness :
  let st1 := fst (handle "k" users (witness_post witness_auth)) in
  let b := {| b_movietitle := JStr "Tenet"; b_language := JNull; b_watched := JStr "no" |} in
  let rq := {| rq_now := 3000; rq_rand := 0; rq_auth := witness_auth;
               rq_route := PutMovie "2007" b |} in
  let m := {| mid := 2007; movietitle := JStr "Inception"; language := JStr "English";
              watched := JBool false |} in
  let u := {| uid := 1; username := "Ashwanth"; password := "kok123"; movies := [m] |} in
  rq_route rq = PutMovie "2007" b /\
  authenticateToken st1 "k" (rq_now rq) (rq_auth rq) = inr u /\
  find (id_matches (js_Number "2007")) (movies u) = Some m /\
  is_undef (b_movietitle b) || is_undef (b_language b) || is_undef (b_watched b) = false /\
  exists pre post, movies u = (pre ++ m :: post)%list /\
    handle "k" st1 rq =
      (set_movies st1 1 (pre ++ {| mid := 2007; movietitle := JStr "Tenet"; language := JNull;
                                   watched := JBool true |} :: post),
       reply 200 (RMovie {| mid := 2007; movietitle := JStr "Tenet"; language := JNull;
                            watched := JBool true |})).
Proof.
  intros st1 b rq m u.
  assert (G : authenticateToken st1 "k" (rq_now rq) (rq_auth rq) = inr u)
    by (vm_compute; reflexivity).
  assert (Fm : find (id_matches (js_Number "2007")) (movies u) = Some m)
    by (vm_compute; reflexivity).
  split; [reflexivity|]. split; [exact G|]. split; [exact Fm|]. split; [reflexivity|].
  destruct (proj2 (put_replace "k" st1 rq "2007" b u eq_refl G) m Fm) as [_ H].
  destruct (H eq_refl) as (pre & post & H1 & _ & H3).
  exists pre, post. split; [exact H1|exact H3].
Defined.

(** X3: POST /movies answers 400 and changes nothing when [movietitle] or
    [language] is falsy; otherwise it appends, at the end of the user's
    collection, the movie with id [Date.now() + r], the given title and
    language, and [watched] set to [false] when absent and to [!!watched]
    otherwise, and answers 201 with that movie. *)
Theorem post_create (key : string) (st : store) (rq : request) (b : movie_body) (u : user) :
  rq_route rq = PostMovies b ->
  authenticateToken st key (rq_now rq) (rq_auth rq) = inr u ->
  ((truthy (b_movietitle b) = false \/ truthy (b_language b) = false) ->
     handle key st rq = (st, reply 400 (RMessage "movietitle and language are required"))) /\
  (truthy (b_movietitle b) = true -> truthy (b_language b) = true ->
     let nm := {| mid := rq_now rq + rq_rand rq; movietitle := b_movietitle b;
                  language := b_language b;
                  watched := if is_undef (b_watched b) then JBool false
                             else JBool (truthy (b_watched b)) |} in
     handle key st rq = (set_movies st (uid u) (movies u ++ [nm]), reply 201 (RMovie nm)) /\
     movies_of (fst (handle key st rq)) (uid u) = Some (movies u ++ [nm])%list).
Proof.
  intros R G. pose proof (guard_found _ _ _ _ _ G) as F.
  assert (Hh : handle key st rq =
    (set_movies st (uid u) (fst (post_movies u (rq_now rq) (rq_rand rq) b)),
     snd (post_movies u (rq_now rq) (rq_rand rq) b))).
  { unfold handle. rewrite R. apply with_auth_accepted, G. }
  split.
  - intros H. rewrite Hh. unfold post_movies.
    replace (negb (truthy (b_movietitle b)) || negb (truthy (b_language b))) with true
      by (destruct H as [H|H]; rewrite H; simpl; [reflexivity|symmetry; apply orb_true_r]).
    simpl. rewrite (set_movies_found _ _ _ F). reflexivity.
  - intros H1 H2 nm. rewrite Hh. unfold post_movies. rewrite H1, H2. simpl.
    split; [reflexivity|]. exact (find_set_same _ _ _ _ F).
Qed.

Lemma post_create_witness :
  let b := {| b_movietitle := JStr "Inception"; b_language := JStr "English"; b_watched := JUndef |} in
  let rq := witness_post witness_auth in
  let u := {| uid := 1; username := "Ashwanth"; password := "kok123"; movies := [] |} in
  rq_route rq = PostMovies b /\
  authenticateToken users "k" (rq_now rq) (rq_auth rq) = inr u /\
  truthy (b_movietitle b) = true /\ truthy (b_language b) = true /\
  movies_of (fst (handle "k" users rq)) 1 =
    Some [{| mid := 2007; movietitle := JStr "Inception"; language := JStr "English";
             watched := JBool false |}].
Proof.
  intros b rq u.
  assert (G : authenticateToken users "k" (rq_now rq) (rq_auth rq) = inr u)
    by (vm_compute; reflexivity).
  split; [reflexivity|]. split; [exact G|]. split; [reflexivity|]. split; [reflexivity|].
  exact (proj2 (proj2 (post_create "k" users rq b u eq_refl G) eq_refl eq_refl)).
Defined.

Lemma num_eqb_id_matches (n n' : jsnum) (mv : movie) :
  num_eqb n n' = true -> id_matches n mv = id_matches n' mv.
Proof.
  unfold id_matches. destruct n, n'; simpl; try discriminate; auto.
  intros H. apply Qeq_bool_iff in H.
  destruct (Qeq_bool (inject_Z (mid mv)) q) eqn:E1;
  destruct (Qeq_bool (inject_Z (mid mv)) q0) eqn:E2; auto.
  - apply Qeq_bool_iff in E1. apply Qeq_bool_neq in E2. exfalso. apply E2.
    rewrite E1. exact H.
  - apply Qeq_bool_iff in E2. apply Qeq_bool_neq in E1. exfalso. apply E1.
    rewrite E2. symmetry. exact H.
Qed.

Lemma find_ext {A} (f g : A -> bool) (l : list A) :
  (forall x, f x = g x) -> find f l = find g l.
Proof. intros H. induction l as [|x l IH]; simpl; auto. rewrite H, IH. reflexivity. Qed.

(** X4: GET /movies/:id compares ids after [Number()]: when a movie of the
    user has an id numerically equal to [Number(p)], the answer is 200 with
    the first such movie and the store is unchanged, and two path strings
    with equal [Number()] values (["2007"], ["0x7D7"], ["2007.0"],
    [" 2007 "]) always get the same answer. *)
Theorem get_by_coerced_id (key : string) (st : store) (rq : request) (p : string) (u : user) :
  rq_route rq = GetMovie p ->
  authenticateToken st key (rq_now rq) (rq_auth rq) = inr u ->
  ((exists m, In m (movies u) /\ id_matches (js_Number p) m = true) ->
     exists pre m post,
       movies u = (pre ++ m :: post)%list /\
       Forall (fun x => id_matches (js_Number p) x = false) pre /\
       id_matches (js_Number p) m = true /\
       handle key st rq = (st, reply 200 (RMovie m))) /\
  (forall q, num_eqb (js_Number p) (js_Number q) = true ->
     get_movie u p = get_movie u q).
Proof.
  intros R G. pose proof (guard_found _ _ _ _ _ G) as F. split.
  - intros (m0 & Hin & Hm0).
    destruct (find (id_matches (js_Number p)) (movies u)) as [m|] eqn:Hf.
    + destruct (find_split _ (fun x => x) _ _ Hf) as (pre & post & H1 & H2 & _).
      exists pre, m, post. split; [exact H1|]. split; [exact H2|].
      split; [apply find_some in Hf; tauto|].
      unfold handle. rewrite R, (with_auth_accepted _ _ _ _ _ G). simpl.
      rewrite (set_movies_found _ _ _ F). unfold get_movie. rewrite Hf. reflexivity.
    + exfalso. pose proof (find_none _ _ Hf m0 Hin) as E. congruence.
  - intros q Hq. unfold get_movie.
    rewrite (find_ext (id_matches (js_Number p)) (id_matches (js_Number q)))
      by (intros x; apply num_eqb_id_matches, Hq).
    reflexivity.
Qed.

Lemma get_by_coerced_id_witness :
  let st1 := fst (handle "k" users (witness_post witness_auth)) in
  let rq := {| rq_now := 3000; rq_rand := 0; rq_auth := witness_auth;
               rq_route := GetMovie "2007" |} in
  let m := {| mid := 2007; movietitle := JStr "Inception"; language := JStr "English";
              watched := JBool false |} in
  let u := {| uid := 1; username := "Ashwanth"; password := "kok123"; movies := [m] |} in
  rq_route rq = GetMovie "2007" /\
  authenticateToken st1 "k" (rq_now rq) (rq_auth rq) = inr u /\
  num_eqb (js_Number "2007") (js_Number "0x7D7") = true /\
  get_movie u "2007" = get_movie u "0x7D7" /\
  handle "k" st1 rq = (st1, reply 200 (RMovie m)).
Proof.
  intros st1 rq m u.
  assert (G : authenticateToken st1 "k" (rq_now rq) (rq_auth rq) = inr u)
    by (vm_compute; reflexivity).
  assert (Hq : num_eqb (js_Number "2007") (js_Number "0x7D7") = true) by reflexivity.
  destruct (get_by_coerced_id "k" st1 rq "2007" u eq_refl G) as [H1 H2].
  split; [reflexivity|]. split; [exact G|]. split; [exact Hq|].
  split; [exact (H2 "0x7D7" Hq)|].
  destruct (H1 (ex_intro _ m (conj (or_introl eq_refl) eq_refl)))
    as (pre & m1 & post & E & _ & _ & Hh).
  destruct pre as [|x pre]; [injection E as -> _; exact Hh|].
  destruct pre; discriminate.
Defined.

Lemma uids_creds (st : store) : uids st = map (fun c => fst (fst c)) (creds st).
Proof. unfold uids, creds. rewrite map_map. reflexivity. Qed.

Lemma login_creds (st1 st2 : store) (key : string) (now : Z) (un pw : jsval) :
  creds st1 = creds st2 -> login st1 key now un pw = login st2 key now un pw.
Proof.
  intros H. unfold login. destruct (negb (truthy un) || negb (truthy pw)); [reflexivity|].
  revert st2 H. induction st1 as [|a st1 IH]; intros [|c st2] H; simpl in H;
    try discriminate; [reflexivity|].
  injection H as Hi Hn Hp Hr. simpl. rewrite Hn, Hp.
  destruct (jseq_str un (username c) && jseq_str pw (password c)).
  - rewrite Hi, Hn. reflexivity.
  - apply IH. exact Hr.
Qed.

Lemma run_creds (key : string) (rqs : list request) :
  forall st, creds (fst (run key st rqs)) = creds st.
Proof.
  induction rqs as [|rq rest IH]; intros st; simpl; [reflexivity|].
  pose proof (handle_creds key st rq) as H.
  destruct (handle key st rq) as [st1 r]. destruct (run key st1 rest) as [st2 rs] eqn:E.
  simpl in *. specialize (IH st1). rewrite E in IH. simpl in IH. congruence.
Qed.

(** X5: no request changes the credential table (ids, usernames,
    passwords): after any sequence of requests, every login answers as it
    would have at the start, and the guard resolves every request to the
    same user id. *)
Theorem credentials_invariant (key : string) (st : store) (rqs : list request) :
  creds (fst (run key st rqs)) = creds st /\
  (forall now un pw, login (fst (run key st rqs)) key now un pw = login st key now un pw) /\
  (forall rq, auth_uid key (fst (run key st rqs)) rq = auth_uid key st rq).
Proof.
  pose proof (run_creds key rqs st) as H.
  split; [exact H|]. split.
  - intros now un pw. apply login_creds, H.
  - intros rq. apply auth_uid_uids. rewrite !uids_creds, H. reflexivity.
Qed.

Lemma filter_length_eq {A} (p : A -> bool) (l : list A) :
  List.length (filter p l) = List.length l -> filter p l = l.
Proof.
  induction l as [|x l IH]; simpl; auto.
  assert (Hle : (List.length (filter p l) <= List.length l)%nat).
  { clear IH. induction l as [|y l IHl]; simpl; [lia|]. destruct (p y); simpl; lia. }
  destruct (p x); simpl; intros H.
  - rewrite IH by lia. reflexivity.
  - lia.
Qed.

(** X6: a request answered with an error (400, 401, 403 or 404) leaves the
    user table exactly as it was: validation happens before any write, and
    a DELETE of an absent id writes back an equal array. *)
Theorem failed_requests_no_effect (key : string) (st : store) (rq : request) :
  In (code (snd (handle key st rq))) [400; 401; 403; 404] ->
  fst (handle key st rq) = st.
Proof.
  unfold handle. destruct (rq_route rq) as [un pw|s|b|p|p b|p b|p]; [reflexivity|..].
  all: unfold with_auth;
    destruct (authenticateToken st key (rq_now rq) (rq_auth rq)) as [r|u] eqn:G;
    [reflexivity|]; pose proof (guard_found _ _ _ _ _ G) as F.
  all: intros Hc.
  - simpl. apply set_movies_found, F.
  - unfold post_movies in *.
    destruct (negb (truthy (b_movietitle b)) || negb (truthy (b_language b))); simpl in *.
    + apply set_movies_found, F.
    + exfalso. simpl in Hc. intuition discriminate.
  - simpl. apply set_movies_found, F.
  - unfold put_movie in *. destruct (find _ _); [destruct (_ || _ || _)|]; simpl in *;
      try (apply set_movies_found, F).
    exfalso. simpl in Hc. intuition discriminate.
  - unfold patch_movie in *. destruct (find _ _); simpl in *;
      try (apply set_movies_found, F).
    exfalso. simpl in Hc. intuition discriminate.
  - unfold delete_movie in *.
    destruct (Nat.eqb_spec (List.length (movies u))
               (List.length (filter (fun m => negb (id_matches (js_Number p) m)) (movies u))))
      as [E|_]; simpl in *.
    + rewrite filter_length_eq by congruence. apply set_movies_found, F.
    + exfalso. simpl in Hc. intuition discriminate.
Qed.

Lemma failed_requests_no_effect_witness :
  let rq := {| rq_now := 3000; rq_rand := 0; rq_auth := witness_auth;
               rq_route := PostMovies {| b_movietitle := JStr ""; b_language := JStr "English";
                                         b_watched := JUndef |} |} in
  In (code (snd (handle "k" users rq))) [400; 401; 403; 404] /\
  fst (handle "k" users rq) = users.
Proof.
  intros rq.
  assert (H : In (code (snd (handle "k" users rq))) [400; 401; 403; 404])
    by (vm_compute; left; reflexivity).
  split; [exact H|]. exact (failed_requests_no_effect "k" users rq H).
Defined.

(** X7: the read-only routes (POST /login, GET /movies, GET /movies/:id)
    leave the user table unchanged, whatever they answer. *)
Theorem read_only_routes (key : string) (st : store) (rq : request) :
  match rq_route rq with
  | PostLogin _ _ | GetMovies _ | GetMovie _ => True
  | _ => False
  end ->
  fst (handle key st rq) = st.
Proof.
  unfold handle. destruct (rq_route rq); intros Hr; try contradiction; [reflexivity|..].
  all: unfold with_auth;
    destruct (authenticateToken st key (rq_now rq) (rq_auth rq)) as [r|u] eqn:G;
    [reflexivity|]; simpl; apply set_movies_found, (guard_found _ _ _ _ _ G).
Qed.

Lemma read_only_routes_witness :
  let rq := witness_get witness_auth in
  match rq_route rq with
  | PostLogin _ _ | GetMovies _ | GetMovie _ => True
  | _ => False
  end /\ fst (handle "k" users rq) = users.
Proof.
  intros rq. assert (H : match rq_route rq with
    | PostLogin _ _ | GetMovies _ | GetMovie _ => True | _ => False end) by exact I.
  split; [exact H|]. exact (read_only_routes "k" users rq H).
Defined.

Lemma watched_filters_perm (l : list movie) :
  (forall m, In m l -> exists b, watched m = JBool b) ->
  Permutation (filter (fun m => jseq_bool (watched m) true) l ++
               filter (fun m => jseq_bool (watched m) false) l)%list l.
Proof.
  induction l as [|x l IH]; intros H; simpl; [constructor|].
  assert (IH' := IH (fun m Hm => H m (or_intror Hm))).
  destruct (H x (or_introl eq_refl)) as [[|] Hx]; rewrite Hx; simpl.
  - constructor. exact IH'.
  - symmetry. eapply Permutation_trans; [|apply Permutation_middle].
    constructor. symmetry. exact IH'.
Qed.

(** X8: in every table reachable from the initial one, the answers of
    GET /movies?status=watched and ?status=unwatched together hold exactly
    the user's whole collection: every movie is in one of the two lists,
    none is in both, none is lost. *)
Theorem watched_partition (key : string) (rqs : list request) (u : user) :
  In u (fst (run key users rqs)) ->
  exists w un,
    get_movies u (JStr "watched") = reply 200 (RMovies w) /\
    get_movies u (JStr "unwatched") = reply 200 (RMovies un) /\
    Permutation (w ++ un)%list (movies u).
Proof.
  intros Hu.
  assert (Hw : watched_bool users)
    by (intros v m Hv Hm; destruct Hv as [<-|[<-|[]]]; destruct Hm).
  pose proof (run_watched_bool key rqs users Hw u) as Hb.
  eexists _, _. split; [reflexivity|]. split; [reflexivity|].
  apply watched_filters_perm. intros m Hm. exact (Hb m Hu Hm).
Qed.

Lemma watched_partition_witness :
  let rq2 := {| rq_now := 3000; rq_rand := 1; rq_auth := witness_auth;
                rq_route := PostMovies {| b_movietitle := JStr "Up"; b_language := JStr "English";
                                          b_watched := JBool true |} |} in
  let u := {| uid := 1; username := "Ashwanth"; password := "kok123";
              movies := [{| mid := 2007; movietitle := JStr "Inception"; language := JStr "English";
                            watched := JBool false |};
                         {| mid := 3001; movietitle := JStr "Up"; language := JStr "English";
                            watched := JBool true |}] |} in
  In u (fst (run "k" users [witness_post witness_auth; rq2])) /\
  exists w un,
    get_movies u (JStr "watched") = reply 200 (RMovies w) /\
    get_movies u (JStr "unwatched") = reply 200 (RMovies un) /\
    Permutation (w ++ un)%list (movies u).
Proof.
  intros rq2 u.
  assert (H : In u (fst (run "k" users [witness_post witness_auth; rq2])))
    by (vm_compute; left; reflexivity).
  split; [exact H|]. exact (watched_partition "k" _ u H).
Defined.

(** X9: a header whose scheme word is followed by two spaces, or by a
    single space and nothing else (["Bearer  <token>"], ["Bearer "]), is a
    missing token: every protected route answers 401 and changes nothing,
    even when what follows the spaces is a valid token. *)
Theorem double_space_header (key : string) (st : store) (rq : request) (w r : string) :
  is_protected (rq_route rq) = true ->
  has_space w = false ->
  rq_auth rq = Some (w ++ String " " r) ->
  (r = "" \/ exists t, r = String " " t) ->
  handle key st rq = (st, reply 401 (RMessage "Missing token")).
Proof.
  intros Hp Hw Ha Hr. apply handle_rejected; [exact Hp|].
  unfold authenticateToken. rewrite Ha, (token_of_word w r Hw).
  destruct Hr as [->|[t ->]]; reflexivity.
Qed.

Lemma double_space_header_witness :
  let tok := jwt_sign 1 "Ashwanth" "k" 1000 in
  let rq := witness_get (Some ("Bearer" ++ String " " (String " " tok))) in
  is_protected (rq_route rq) = true /\ has_space "Bearer" = false /\
  rq_auth rq = Some ("Bearer" ++ String " " (String " " tok)) /\
  (String " " tok = "" \/ exists t, String " " tok = String " " t) /\
  handle "k" users rq = (users, reply 401 (RMessage "Missing token")).
Proof.
  intros tok rq.
  assert (Hr : String " " tok = "" \/ exists t, String " " tok = String " " t)
    by (right; exists tok; reflexivity).
  split; [reflexivity|]. split; [reflexivity|]. split; [reflexivity|]. split; [exact Hr|].
  exact (double_space_header "k" users rq "Bearer" (String " " tok) eq_refl eq_refl eq_refl Hr).
Defined.

(** X10: the guard identifies the user by the token's id alone: a
    [Bearer] token that [jsonwebtoken] signed with the server key is
    accepted as the stored user with that id (whatever username the token
    carries) until [exp], rejected with 403 from [exp] on, and with 401
    when no user has that id. *)
Theorem token_identity_by_id (st : store) (key : string) (now : Z)
    (id : Z) (un : string) (t0 : Z) :
  authenticateToken st key now (Some ("Bearer " ++ jwt_sign id un key t0)) =
  if t0 / 1000 + 86400 <=? now / 1000 then inl (reply 403 (RMessage "Invalid or expired token"))
  else match find_user_by_id st id with
       | None => inl (reply 401 (RMessage "User not found"))
       | Some u => inr u
       end.
Proof.
  unfold authenticateToken.
  change ("Bearer " ++ jwt_sign id un key t0) with ("Bearer" ++ String " " (jwt_sign id un key t0)).
  rewrite token_of_word by reflexivity.
  rewrite split_sp_no_space by apply jwt_sign_no_space. simpl.
  destruct (String.eqb_spec (jwt_sign id un key t0) "") as [E|_];
    [exfalso; exact (jwt_sign_nonempty _ _ _ _ E)|].
  rewrite jwt_verify_sign. destruct (t0 / 1000 + 86400 <=? now / 1000); reflexivity.
Qed.

Lemma find_update_first {A} (p : A -> bool) (f : A -> A) (l : list A) (x : A) :
  find p l = Some x -> p (f x) = true -> find p (update_first p f l) = Some (f x).
Proof.
  intros H Hf. destruct (find_split p f l x H) as (pre & post & _ & Hpre & ->).
  induction pre as [|y pre IH]; simpl; [rewrite Hf; reflexivity|].
  inversion Hpre as [|? ? Hy Hr]; subst. rewrite Hy. apply IH. exact Hr.
Qed.

Lemma id_matches_mid (id : jsnum) (m m' : movie) :
  mid m' = mid m -> id_matches id m' = id_matches id m.
Proof. unfold id_matches. intros ->. reflexivity. Qed.

Lemma guard_after_write (key : string) (st : store) (rq rq' : request) (u u' : user)
    (ms : list movie) :
  authenticateToken st key (rq_now rq) (rq_auth rq) = inr u ->
  authenticateToken (set_movies st (uid u) ms) key (rq_now rq') (rq_auth rq') = inr u' ->
  uid u' = uid u -> movies u' = ms.
Proof.
  intros G G' Hid.
  pose proof (find_set_same st (uid u) ms u (guard_found _ _ _ _ _ G)) as H1.
  pose proof (guard_found _ _ _ _ _ G') as H2. rewrite Hid in H2.
  unfold movies_of in H1. rewrite H2 in H1. simpl in H1. congruence.
Qed.

(** X11: a successful PUT or PATCH keeps the sequence of ids of the
    user's collection, and a following GET of the same path by the same
    user answers 200 with exactly the movie the update answered with. *)
Theorem update_then_get (key : string) (st : store) (rq rq' : request) (p : string)
    (b : movie_body) (u u' : user) (m' : movie) :
  (rq_route rq = PutMovie p b \/ rq_route rq = PatchMovie p b) ->
  authenticateToken st key (rq_now rq) (rq_auth rq) = inr u ->
  snd (handle key st rq) = reply 200 (RMovie m') ->
  movies_of (fst (handle key st rq)) (uid u) <> None /\
  option_map (map mid) (movies_of (fst (handle key st rq)) (uid u)) = Some (map mid (movies u)) /\
  (rq_route rq' = GetMovie p ->
   authenticateToken (fst (handle key st rq)) key (rq_now rq') (rq_auth rq') = inr u' ->
   uid u' = uid u ->
   handle key (fst (handle key st rq)) rq' = (fst (handle key st rq), reply 200 (RMovie m'))).
Proof.
  intros R G Hc. pose proof (guard_found _ _ _ _ _ G) as F.
  assert (Hgen : forall f, (forall x, mid (f x) = mid x) ->
    forall m, find (id_matches (js_Number p)) (movies u) = Some m -> m' = f m ->
    handle key st rq = (set_movies st (uid u) (update_first (id_matches (js_Number p)) f (movies u)),
                        reply 200 (RMovie m')) ->
    movies_of (fst (handle key st rq)) (uid u) <> None /\
    option_map (map mid) (movies_of (fst (handle key st rq)) (uid u)) = Some (map mid (movies u)) /\
    (rq_route rq' = GetMovie p ->
     authenticateToken (fst (handle key st rq)) key (rq_now rq') (rq_auth rq') = inr u' ->
     uid u' = uid u ->
     handle key (fst (handle key st rq)) rq' = (fst (handle key st rq), reply 200 (RMovie m')))).
  { intros f Hf m Hm -> Hh. rewrite Hh. simpl.
    rewrite (find_set_same _ _ _ _ F). split; [discriminate|]. split.
    { simpl. rewrite map_update_first by exact Hf. reflexivity. }
    intros R' G' Hid.
    pose proof (guard_after_write _ _ _ _ _ _ _ G G' Hid) as Hms.
    unfold handle at 1. rewrite R', (with_auth_accepted _ _ _ _ _ G'). simpl.
    rewrite (set_movies_found _ _ _ (guard_found _ _ _ _ _ G')).
    unfold get_movie. rewrite Hms, (find_update_first _ _ _ m Hm); [reflexivity|].
    rewrite (id_matches_mid _ m (f m) (Hf m)). apply find_some in Hm. tauto. }
  unfold handle in Hc. destruct R as [R|R]; rewrite R, (with_auth_accepted _ _ _ _ _ G) in Hc;
    simpl in Hc.
  - unfold put_movie in Hc.
    destruct (find (id_matches (js_Number p)) (movies u)) as [m|] eqn:Hm; [|discriminate].
    destruct (is_undef (b_movietitle b) || is_undef (b_language b) || is_undef (b_watched b)) eqn:Hu;
      [discriminate|].
    injection Hc as Hc'. apply (Hgen (put_fields b) (fun _ => eq_refl) m eq_refl); [congruence|].
    unfold handle. rewrite R, (with_auth_accepted _ _ _ _ _ G). unfold put_movie.
    rewrite Hm, Hu. simpl. congruence.
  - unfold patch_movie in Hc.
    destruct (find (id_matches (js_Number p)) (movies u)) as [m|] eqn:Hm; [|discriminate].
    injection Hc as Hc'. apply (Hgen (patch_fields b) (fun _ => eq_refl) m eq_refl); [congruence|].
    unfold handle. rewrite R, (with_auth_accepted _ _ _ _ _ G). unfold patch_movie.
    rewrite Hm. simpl. congruence.
Qed.

Lemma update_then_get_witness :
  let st1 := fst (handle "k" users (witness_post witness_auth)) in
  let b := {| b_movietitle := JUndef; b_language := JUndef; b_watched := JStr "yes" |} in
  let rq := {| rq_now := 3000; rq_rand := 0; rq_auth := witness_auth;
               rq_route := PatchMovie "2007" b |} in
  let rq' := {| rq_now := 4000; rq_rand := 0; rq_auth := witness_auth;
                rq_route := GetMovie "2007" |} in
  let m0 := {| mid := 2007; movietitle := JStr "Inception"; language := JStr "English";
               watched := JBool false |} in
  let u := {| uid := 1; username := "Ashwanth"; password := "kok123"; movies := [m0] |} in
  let m' := {| mid := 2007; movietitle := JStr "Inception"; language := JStr "English";
               watched := JBool true |} in
  let u' := {| uid := 1; username := "Ashwanth"; password := "kok123"; movies := [m'] |} in
  authenticateToken st1 "k" (rq_now rq) (rq_auth rq) = inr u /\
  snd (handle "k" st1 rq) = reply 200 (RMovie m') /\
  authenticateToken (fst (handle "k" st1 rq)) "k" (rq_now rq') (rq_auth rq') = inr u' /\
  handle "k" (fst (handle "k" st1 rq)) rq' = (fst (handle "k" st1 rq), reply 200 (RMovie m')).
Proof.
  intros st1 b rq rq' m0 u m' u'.
  assert (G : authenticateToken st1 "k" (rq_now rq) (rq_auth rq) = inr u)
    by (vm_compute; reflexivity).
  assert (Hc : snd (handle "k" st1 rq) = reply 200 (RMovie m')) by (vm_compute; reflexivity).
  assert (G' : authenticateToken (fst (handle "k" st1 rq)) "k" (rq_now rq') (rq_auth rq') = inr u')
    by (vm_compute; reflexivity).
  destruct (update_then_get "k" st1 rq rq' "2007" b u u' m' (or_intror eq_refl) G Hc)
    as (_ & _ & H).
  split; [exact G|]. split; [exact Hc|]. split; [exact G'|].
  exact (H eq_refl G' eq_refl).
Defined.

Lemma login_code (st : store) (key : string) (now : Z) (un pw : jsval) :
  code (login st key now un pw) <> 201 /\ code (login st key now un pw) <> 204.
Proof.
  unfold login. destruct (negb (truthy un) || negb (truthy pw)); [simpl; split; discriminate|].
  destruct (find _ st); simpl; split; discriminate.
Qed.

Lemma update_first_length {A} (p : A -> bool) (f : A -> A) (l : list A) :
  List.length (update_first p f l) = List.length l.
Proof. induction l as [|x l IH]; simpl; auto. destruct (p x); simpl; auto. Qed.

(** X12: within one request the authenticated user's collection grows
    only when the answer is 201 (POST, by exactly one movie) and shrinks
    only when it is 204 (DELETE, by at least one); every other answer
    leaves its length unchanged. *)
Theorem collection_size (key : string) (st : store) (rq : request) (u : user) :
  authenticateToken st key (rq_now rq) (rq_auth rq) = inr u ->
  exists ms, movies_of (fst (handle key st rq)) (uid u) = Some ms /\
    (code (snd (handle key st rq)) = 201 -> List.length ms = S (List.length (movies u))) /\
    (code (snd (handle key st rq)) = 204 -> (List.length ms < List.length (movies u))%nat) /\
    (code (snd (handle key st rq)) <> 201 -> code (snd (handle key st rq)) <> 204 ->
       List.length ms = List.length (movies u)).
Proof.
  intros G. pose proof (guard_found _ _ _ _ _ G) as F.
  unfold handle. destruct (rq_route rq) as [un pw|s|b|p|p b|p b|p].
  { exists (movies u). simpl. unfold movies_of. rewrite F.
    destruct (login_code st key (rq_now rq) un pw) as [C1 C2].
    split; [reflexivity|]. split; [intros C; congruence|]. split; [intros C; congruence|].
    intros _ _. reflexivity. }
  all: rewrite (with_auth_accepted _ _ _ _ _ G); simpl;
    rewrite (find_set_same _ _ _ _ F); eexists; split; [reflexivity|].
  - simpl. split; [discriminate|]. split; [discriminate|]. auto.
  - unfold post_movies.
    destruct (negb (truthy (b_movietitle b)) || negb (truthy (b_language b))); simpl.
    + split; [discriminate|]. split; [discriminate|]. auto.
    + rewrite List.length_app. simpl. split; [lia|]. split; [discriminate|]. intros C; congruence.
  - unfold get_movie. destruct (find _ _); simpl;
      (split; [discriminate|]; split; [discriminate|]; auto).
  - unfold put_movie. destruct (find _ _); [destruct (_ || _ || _)|]; simpl;
      rewrite ?update_first_length;
      (split; [discriminate|]; split; [discriminate|]; auto).
  - unfold patch_movie. destruct (find _ _); simpl;
      rewrite ?update_first_length;
      (split; [discriminate|]; split; [discriminate|]; auto).
  - unfold delete_movie.
    pose proof (filter_length_le (fun m => negb (id_matches (js_Number p) m)) (movies u)) as Hle.
    destruct (Nat.eqb_spec (List.length (movies u))
               (List.length (filter (fun m => negb (id_matches (js_Number p) m)) (movies u))))
      as [E|Ne]; simpl.
    + split; [discriminate|]. split; [discriminate|]. auto.
    + split; [discriminate|]. split; [lia|]. intros _ C; exfalso; apply C; reflexivity.
Qed.

Lemma collection_size_witness :
  let st1 := fst (handle "k" users (witness_post witness_auth)) in
  let rq := {| rq_now := 3000; rq_rand := 0; rq_auth := witness_auth;
               rq_route := DeleteMovie "2007" |} in
  let u := {| uid := 1; username := "Ashwanth"; password := "kok123";
              movies := [{| mid := 2007; movietitle := JStr "Inception";
                            language := JStr "English"; watched := JBool false |}] |} in
  authenticateToken st1 "k" (rq_now rq) (rq_auth rq) = inr u /\
  code (snd (handle "k" st1 rq)) = 204 /\
  exists ms, movies_of (fst (handle "k" st1 rq)) (uid u) = Some ms /\
    (List.length ms < List.length (movies u))%nat.
Proof.
  intros st1 rq u.
  assert (G : authenticateToken st1 "k" (rq_now rq) (rq_auth rq) = inr u)
    by (vm_compute; reflexivity).
  assert (Hc : code (snd (handle "k" st1 rq)) = 204) by (vm_compute; reflexivity).
  split; [exact G|]. split; [exact Hc|].
  destruct (collection_size "k" st1 rq u G) as (ms & Hms & _ & H204 & _).
  exists ms. split; [exact Hms|]. exact (H204 Hc).
Defined.
